(** * Span alignment of [run_qa.py] (bert-qa-ja)

    A shallow embedding of the feature builders and of the metric formatting
    of [bert_qa_ja/run_qa.py], with the properties of the training label
    aligner, the inference feature builder, the sample limits and the
    prediction records.

    Python values are modelled as the code has them: [int] as [Z], a list
    as [list], [None]-or-value as [option], a raised exception as the
    [Raise] outcome of a small error monad.  A [while] loop is run with
    fuel; the fuel handed to each loop is shown to be enough. *)

From Stdlib Require Import ZArith Lia Bool PrimFloat Ascii.
From stdpp Require Import base list strings gmap.

Local Open Scope Z_scope.

(** ** Outcomes of Python code *)

Inductive exn : Type :=
| IndexError
| ValueError
| ArrowInvalid.

Inductive result (A : Type) : Type :=
| Ok (a : A)
| Raise (e : exn)
| OutOfFuel.

Arguments Ok {A} a.
Arguments Raise {A} e.
Arguments OutOfFuel {A}.

Definition bind {A B : Type} (m : result A) (k : A -> result B) : result B :=
  match m with
  | Ok a => k a
  | Raise e => Raise e
  | OutOfFuel => OutOfFuel
  end.

Notation "x <- m ;; k" := (bind m (fun x => k))
  (at level 100, m at next level, right associativity).

(** A result that is a value or an exception: the loop did not run dry. *)
Definition returns {A : Type} (r : result A) : Prop := r <> OutOfFuel.

(** ** Python sequences *)

(** [len(l)] *)
Definition len {A : Type} (l : list A) : Z := Z.of_nat (length l).

(** [l[i]]: a negative index counts from the end, anything outside
    [-len(l) .. len(l) - 1] raises [IndexError]. *)
Definition py_get {A : Type} (l : list A) (i : Z) : result A :=
  let j := if i <? 0 then i + len l else i in
  if (0 <=? j) && (j <? len l) then
    match l !! Z.to_nat j with
    | Some x => Ok x
    | None => Raise IndexError
    end
  else Raise IndexError.

(** [l.index(x)]: the first position of [x], [ValueError] when absent. *)
Fixpoint py_list_index (l : list Z) (x : Z) : result Z :=
  match l with
  | [] => Raise ValueError
  | y :: l' =>
      if y =? x then Ok 0
      else i <- py_list_index l' x ;; Ok (i + 1)
  end.

(** [while cond(s): s = body(s)], with fuel. *)
Fixpoint while {S : Type} (fuel : nat) (cond : S -> result bool)
    (body : S -> S) (s : S) : result S :=
  match fuel with
  | O => OutOfFuel
  | Datatypes.S f =>
      b <- cond s ;;
      if b then while f cond body (body s) else Ok s
  end.

(** [for i, x in enumerate(l): s = body(i, x, s)], counting from [i]. *)
Fixpoint for_enumerate {A S : Type} (l : list A) (i : nat)
    (body : nat -> A -> S -> result S) (s : S) : result S :=
  match l with
  | [] => Ok s
  | x :: l' => s' <- body i x s ;; for_enumerate l' (Datatypes.S i) body s'
  end.

(** ** Tokenizer output *)

(** The character offsets of one token, [(start, end)]. *)
Definition offset : Type := Z * Z.

(** A Python [str], as its sequence of code points. *)
Definition str : Type := list N.

(** What the fast tokenizer returns for a batch: one entry per feature. *)
Record BatchEncoding : Type := {
  input_ids : list (list Z);
  sequence_ids : list (list (option Z));
  offset_mapping : list (list offset);
  overflow_to_sample_mapping : list Z
}.

(** One entry of the answers column: parallel lists of gold answers. *)
Record Answers : Type := {
  answer_start : list Z;
  text : list str
}.

(** The two label columns added by [prepare_train_features]. *)
Record Labels : Type := {
  start_positions : list Z;
  end_positions : list Z
}.

Definition append_start (st : Labels) (x : Z) : Labels :=
  {| start_positions := start_positions st ++ [x];
     end_positions := end_positions st |}.

Definition append_end (st : Labels) (x : Z) : Labels :=
  {| start_positions := start_positions st;
     end_positions := end_positions st ++ [x] |}.

(** ** Training preprocessing: [prepare_train_features] *)

Section Train.

Variable cls_token_id : Z.
Variable pad_on_right : bool.

(** [1 if pad_on_right else 0] *)
Definition context_index : Z := if pad_on_right then 1 else 0.

(** [sequence_ids[k] != (1 if pad_on_right else 0)] *)
Definition not_context (sequence_ids : list (option Z)) (k : Z) : result bool :=
  x <- py_get sequence_ids k ;;
  Ok (negb (bool_decide (x = Some context_index))).

(** [token_start_index < len(offsets) and offsets[token_start_index][0] <= start_char] *)
Definition starts_before (offsets : list offset) (start_char : Z) (k : Z)
  : result bool :=
  if k <? len offsets then
    o <- py_get offsets k ;; Ok (fst o <=? start_char)
  else Ok false.

(** [offsets[token_end_index][1] >= end_char] *)
Definition ends_after (offsets : list offset) (end_char : Z) (k : Z)
  : result bool :=
  o <- py_get offsets k ;; Ok (snd o >=? end_char).

(** [offsets[token_start_index][0] <= start_char
     and offsets[token_end_index][1] >= end_char], left to right. *)
Definition answer_in_span (offsets : list offset)
    (token_start_index token_end_index start_char end_char : Z) : result bool :=
  o <- py_get offsets token_start_index ;;
  if fst o <=? start_char then
    o' <- py_get offsets token_end_index ;; Ok (snd o' >=? end_char)
  else Ok false.

(** Fuel for the loops over one feature. *)
Definition loop_fuel (ids : list Z) (sids : list (option Z))
    (offsets : list offset) : nat :=
  (length ids + length sids + length offsets + 2)%nat.

(** The body of the loop over [enumerate(offset_mapping)]. *)
Definition label_feature (examples_answers : list Answers)
    (tokenized_examples : BatchEncoding) (i : nat) (offsets : list offset)
    (st : Labels) : result Labels :=
  ids <- py_get (input_ids tokenized_examples) (Z.of_nat i) ;;
  cls_index <- py_list_index ids cls_token_id ;;
  sids <- py_get (sequence_ids tokenized_examples) (Z.of_nat i) ;;
  sample_index <-
    py_get (overflow_to_sample_mapping tokenized_examples) (Z.of_nat i) ;;
  answers <- py_get examples_answers sample_index ;;
  if len (answer_start answers) =? 0 then
    Ok (append_end (append_start st cls_index) cls_index)
  else
    start_char <- py_get (answer_start answers) 0 ;;
    answer_text <- py_get (text answers) 0 ;;
    let end_char := start_char + len answer_text in
    let fuel := loop_fuel ids sids offsets in
    token_start_index <- while fuel (not_context sids) Z.succ 0 ;;
    token_end_index <- while fuel (not_context sids) Z.pred (len ids - 1) ;;
    inside <-
      answer_in_span offsets token_start_index token_end_index
        start_char end_char ;;
    if negb inside then
      Ok (append_end (append_start st cls_index) cls_index)
    else
      token_start_index <-
        while fuel (starts_before offsets start_char) Z.succ token_start_index ;;
      let st := append_start st (token_start_index - 1) in
      token_end_index <-
        while fuel (ends_after offsets end_char) Z.pred token_end_index ;;
      Ok (append_end st (token_end_index + 1)).

(** The labelling loop of [prepare_train_features], on the tokenizer's
    output with its two popped columns. *)
Definition label_features (examples_answers : list Answers)
    (tokenized_examples : BatchEncoding) : result Labels :=
  for_enumerate (offset_mapping tokenized_examples) 0
    (label_feature examples_answers tokenized_examples)
    {| start_positions := []; end_positions := [] |}.

End Train.

(** ** Examples, tokenizer and the batched feature functions *)

(** One row of a dataset split.  A batch is a list of rows; the column
    [examples[name]] is the list of that field over the batch. *)
Record Example : Type := {
  ex_id : string;
  ex_question : str;
  ex_context : str;
  ex_answers : Answers
}.

(** The tokenizer call of both feature functions: first texts, second
    texts, [truncation == "only_second"], [max_length], [stride],
    [padding == "max_length"]. *)
Definition Tokenizer : Type :=
  list str -> list str -> bool -> Z -> Z -> bool -> BatchEncoding.

Definition tokenize (tokenizer : Tokenizer) (pad_on_right : bool)
    (max_seq_length doc_stride : Z) (pad_to_max_length : bool)
    (examples : list Example) : BatchEncoding :=
  tokenizer
    (map (if pad_on_right then ex_question else ex_context) examples)
    (map (if pad_on_right then ex_context else ex_question) examples)
    pad_on_right max_seq_length doc_stride pad_to_max_length.

Definition prepare_train_features (tokenizer : Tokenizer) (cls_token_id : Z)
    (pad_on_right : bool) (max_seq_length doc_stride : Z)
    (pad_to_max_length : bool) (examples : list Example)
  : result (BatchEncoding * Labels) :=
  let tokenized_examples :=
    tokenize tokenizer pad_on_right max_seq_length doc_stride
      pad_to_max_length examples in
  labels <-
    label_features cls_token_id pad_on_right (map ex_answers examples)
      tokenized_examples ;;
  Ok (tokenized_examples, labels).

(** ** Validation preprocessing: [prepare_validation_features] *)

(** The columns [prepare_validation_features] returns; an offset is
    [None] once it has been blanked. *)
Record ValidationFeatures : Type := {
  val_input_ids : list (list Z);
  val_offset_mapping : list (list (option offset));
  example_id : list string
}.

(** [[f(k, o) for k, o in enumerate(l)]], counting from [k]. *)
Fixpoint comprehension_enumerate {A B : Type} (l : list A) (k : nat)
    (f : nat -> A -> result B) : result (list B) :=
  match l with
  | [] => Ok []
  | o :: l' =>
      y <- f k o ;;
      ys <- comprehension_enumerate l' (S k) f ;;
      Ok (y :: ys)
  end.

(** [for i in range(n): s = body(i, s)], counting from [i]. *)
Fixpoint for_range {S : Type} (n : nat) (i : nat)
    (body : nat -> S -> result S) (s : S) : result S :=
  match n with
  | O => Ok s
  | Datatypes.S n' => s' <- body i s ;; for_range n' (Datatypes.S i) body s'
  end.

(** [(o if sequence_ids[k] == context_index else None)] *)
Definition keep_context (pad_on_right : bool) (sids : list (option Z))
    (k : nat) (o : option offset) : result (option offset) :=
  x <- py_get sids (Z.of_nat k) ;;
  Ok (if bool_decide (x = Some (context_index pad_on_right)) then o else None).

(** The body of the loop over [range(len(tokenized_examples["input_ids"]))]. *)
Definition blank_feature (pad_on_right : bool) (examples : list Example)
    (tokenized_examples : BatchEncoding) (i : nat) (st : ValidationFeatures)
  : result ValidationFeatures :=
  sids <- py_get (sequence_ids tokenized_examples) (Z.of_nat i) ;;
  sample_index <-
    py_get (overflow_to_sample_mapping tokenized_examples) (Z.of_nat i) ;;
  eid <- py_get (map ex_id examples) sample_index ;;
  let ids := example_id st ++ [eid] in
  old <- py_get (val_offset_mapping st) (Z.of_nat i) ;;
  new <- comprehension_enumerate old 0 (keep_context pad_on_right sids) ;;
  Ok {| val_input_ids := val_input_ids st;
        val_offset_mapping := <[i := new]> (val_offset_mapping st);
        example_id := ids |}.

Definition prepare_validation_features (tokenizer : Tokenizer)
    (pad_on_right : bool) (max_seq_length doc_stride : Z)
    (pad_to_max_length : bool) (examples : list Example)
  : result ValidationFeatures :=
  let tokenized_examples :=
    tokenize tokenizer pad_on_right max_seq_length doc_stride
      pad_to_max_length examples in
  for_range (length (input_ids tokenized_examples)) 0
    (blank_feature pad_on_right examples tokenized_examples)
    {| val_input_ids := input_ids tokenized_examples;
       val_offset_mapping :=
         map (map Some) (offset_mapping tokenized_examples);
       example_id := [] |}.

(** ** Datasets and the sample limits *)

(** [ds.select(range(n))]: the first [n] rows.  The library returns an
    empty dataset as it is, whatever the indices; on a dataset with rows an
    index past the end is an [IndexError]. *)
Definition Dataset_select_range {A : Type} (n : Z) (ds : list A)
  : result (list A) :=
  match ds with
  | [] => Ok []
  | _ :: _ =>
      if n <=? len ds then Ok (take (Z.to_nat n) ds) else Raise IndexError
  end.

(** The library's default [batch_size] of [Dataset.map]. *)
Definition batch_size : nat := 1000.

(** [ds.map(f, batched=True)] in one process: [f] on consecutive batches,
    the returned rows concatenated in order.  (With several
    [preprocessing_num_workers] the library maps contiguous shards of the
    split the same way and concatenates them in order.) *)
Fixpoint map_batches {A B : Type} (fuel : nat) (f : list A -> result (list B))
    (ds : list A) : result (list B) :=
  match ds with
  | [] => Ok []
  | _ :: _ =>
      match fuel with
      | O => OutOfFuel
      | S fuel' =>
          out <- f (take batch_size ds) ;;
          rest <- map_batches fuel' f (drop batch_size ds) ;;
          Ok (out ++ rest)
      end
  end.

Definition Dataset_map {A B : Type} (f : list A -> result (list B))
    (ds : list A) : result (list B) :=
  map_batches (length ds) f ds.

(** The rows of a mapped training batch. *)
Record TrainFeature : Type := {
  tf_input_ids : list Z;
  tf_start_position : Z;
  tf_end_position : Z
}.

(** The rows of a mapped validation batch. *)
Record Feature : Type := {
  feat_input_ids : list Z;
  feat_offset_mapping : list (option offset);
  feat_example_id : string
}.

(** Columns of one batch turned into rows; columns of different lengths
    are refused by the library. *)
Fixpoint train_rows (ids : list (list Z)) (starts ends : list Z)
  : result (list TrainFeature) :=
  match ids, starts, ends with
  | [], [], [] => Ok []
  | i :: ids', s :: starts', e :: ends' =>
      rest <- train_rows ids' starts' ends' ;;
      Ok ({| tf_input_ids := i; tf_start_position := s;
             tf_end_position := e |} :: rest)
  | _, _, _ => Raise ArrowInvalid
  end.

Fixpoint validation_rows (ids : list (list Z))
    (offs : list (list (option offset))) (eids : list string)
  : result (list Feature) :=
  match ids, offs, eids with
  | [], [], [] => Ok []
  | i :: ids', o :: offs', e :: eids' =>
      rest <- validation_rows ids' offs' eids' ;;
      Ok ({| feat_input_ids := i; feat_offset_mapping := o;
             feat_example_id := e |} :: rest)
  | _, _, _ => Raise ArrowInvalid
  end.

(** The data arguments the feature builders and the formatting read. *)
Record DataArguments : Type := {
  max_seq_length : Z;
  doc_stride : Z;
  pad_to_max_length : bool;
  max_train_samples : option Z;
  max_eval_samples : option Z;
  max_predict_samples : option Z;
  version_2_with_negative : bool;
  n_best_size : Z;
  max_answer_length : Z;
  null_score_diff_threshold : float
}.

(** The splits of the loaded dataset. *)
Record DatasetDict : Type := {
  train : option (list Example);
  validation : option (list Example);
  test : option (list Example)
}.

(** [if limit is not None: ds = ds.select(range(limit))] *)
Definition select_if_limited {A : Type} (limit : option Z) (ds : list A)
  : result (list A) :=
  match limit with
  | Some n => Dataset_select_range n ds
  | None => Ok ds
  end.

Section Preprocess.

Variable tokenizer : Tokenizer.
Variable cls_token_id : Z.
Variable data_args : DataArguments.
Variable pad_on_right : bool.

Definition train_batch (examples : list Example) : result (list TrainFeature) :=
  cols <-
    prepare_train_features tokenizer cls_token_id pad_on_right
      (max_seq_length data_args) (doc_stride data_args)
      (pad_to_max_length data_args) examples ;;
  train_rows (input_ids (fst cols)) (start_positions (snd cols))
    (end_positions (snd cols)).

Definition validation_batch (examples : list Example) : result (list Feature) :=
  cols <-
    prepare_validation_features tokenizer pad_on_right
      (max_seq_length data_args) (doc_stride data_args)
      (pad_to_max_length data_args) examples ;;
  validation_rows (val_input_ids cols) (val_offset_mapping cols)
    (example_id cols).

(** [__preprocess_train_dataset] *)
Definition preprocess_train_dataset (datasets : DatasetDict)
  : result (list TrainFeature) :=
  match train datasets with
  | None => Raise ValueError
  | Some train_dataset =>
      train_dataset <-
        select_if_limited (max_train_samples data_args) train_dataset ;;
      train_dataset <- Dataset_map train_batch train_dataset ;;
      select_if_limited (max_train_samples data_args) train_dataset
  end.

(** The [do_eval] block of [main]: the selected examples and their features. *)
Definition preprocess_eval_dataset (datasets : DatasetDict)
  : result (list Example * list Feature) :=
  match validation datasets with
  | None => Raise ValueError
  | Some eval_examples =>
      eval_examples <-
        select_if_limited (max_eval_samples data_args) eval_examples ;;
      eval_dataset <- Dataset_map validation_batch eval_examples ;;
      eval_dataset <-
        select_if_limited (max_eval_samples data_args) eval_dataset ;;
      Ok (eval_examples, eval_dataset)
  end.

(** The [do_predict] block of [main]. *)
Definition preprocess_predict_dataset (datasets : DatasetDict)
  : result (list Example * list Feature) :=
  match test datasets with
  | None => Raise ValueError
  | Some predict_examples =>
      predict_examples <-
        select_if_limited (max_predict_samples data_args) predict_examples ;;
      predict_dataset <- Dataset_map validation_batch predict_examples ;;
      predict_dataset <-
        select_if_limited (max_predict_samples data_args) predict_dataset ;;
      Ok (predict_examples, predict_dataset)
  end.

End Preprocess.

(** ** Post-processing: [post_processing_function] *)

(** A record handed to the metric; [no_answer_probability] is [None] when
    the record has no such key. *)
Record FormattedPrediction : Type := {
  pred_id : string;
  prediction_text : str;
  no_answer_probability : option float
}.

Record Reference : Type := {
  ref_id : string;
  ref_answers : Answers
}.

Record EvalPrediction : Type := {
  predictions : list FormattedPrediction;
  label_ids : list Reference
}.

Section PostProcessing.

(** The model's raw predictions (start and end logits per feature). *)
Variable Logits : Type.

(** [postprocess_qa_predictions] of [bert_qa_ja.utils_qa], taken as given:
    examples, features, predictions, [version_2_with_negative],
    [n_best_size], [max_answer_length], [null_score_diff_threshold],
    [output_dir], [is_world_process_zero], [prefix]; it returns the items
    of a dictionary from example id to answer text, in insertion order. *)
Variable postprocess_qa_predictions :
  list Example -> list Feature -> Logits -> bool -> Z -> Z -> float ->
  string -> bool -> string -> result (list (string * str)).

Variable data_args : DataArguments.
Variable output_dir : string.
Variable is_world_process_zero : bool.

Definition post_processing_function (examples : list Example)
    (features : list Feature) (predictions : Logits) (stage : string)
  : result EvalPrediction :=
  predictions <-
    postprocess_qa_predictions examples features predictions
      (version_2_with_negative data_args) (n_best_size data_args)
      (max_answer_length data_args) (null_score_diff_threshold data_args)
      output_dir is_world_process_zero stage ;;
  let formatted_predictions :=
    if version_2_with_negative data_args then
      map (fun kv => {| pred_id := fst kv; prediction_text := snd kv;
                        no_answer_probability := Some 0%float |})
        predictions
    else
      map (fun kv => {| pred_id := fst kv; prediction_text := snd kv;
                        no_answer_probability := None |})
        predictions in
  let references :=
    map (fun ex => {| ref_id := ex_id ex; ref_answers := ex_answers ex |})
      examples in
  Ok {| predictions := formatted_predictions; label_ids := references |}.

End PostProcessing.

(** ** The final answer of the Answer Extractor *)

(** Scores are floating-point numbers, the sum of a start and an end logit;
    [x - y] is [PrimFloat.sub x y] and [x > y] is [PrimFloat.ltb y x]. *)

(** Modelled from the spec: a Candidate Answer of the pooled, ranked list
    of [postprocess_qa_predictions] ([bert_qa_ja/utils_qa.py] is not among
    the sources), reduced to its derived text and combined score. *)
Record Candidate : Type := {
  cand_text : str;
  cand_score : float
}.

(** Modelled from the spec: the Final Answer of one example, with the null
    score recorded when the answer is "no answer" ([utils_qa.py] is not
    among the sources). *)
Record FinalAnswer : Type := {
  final_text : str;
  recorded_null_score : option float
}.

(** Modelled from the spec: the best non-null candidate, the first of the
    ranked pool whose text is not empty ([utils_qa.py] is not among the
    sources). *)
Fixpoint best_non_null (pool : list Candidate) : option Candidate :=
  match pool with
  | [] => None
  | c :: pool' =>
      if bool_decide (cand_text c = []) then best_non_null pool' else Some c
  end.

(** Modelled from the spec: steps 5 and 6 of the Answer Extractor
    ([utils_qa.py] is not among the sources).  Without negative answers the
    answer is the top candidate's text; with them
    [score_diff = null_score - best_non_null_score] is computed and the
    answer is "no answer" when [score_diff > null_score_diff_threshold]. *)
Definition final_answer (negative_answers_allowed : bool)
    (null_score null_score_diff_threshold : float) (pool : list Candidate)
  : option FinalAnswer :=
  if negative_answers_allowed then
    match best_non_null pool with
    | Some best =>
        let score_diff := PrimFloat.sub null_score (cand_score best) in
        if PrimFloat.ltb null_score_diff_threshold score_diff then
          Some {| final_text := []; recorded_null_score := Some null_score |}
        else
          Some {| final_text := cand_text best; recorded_null_score := None |}
    | None => None
    end
  else
    match pool with
    | c :: _ => Some {| final_text := cand_text c; recorded_null_score := None |}
    | [] => None
    end.

(** ** Setup helpers of [main] *)

(** A record written to the module's logger. *)
Inductive LogRecord : Type :=
| WarnMaxSeqLength (requested model_max_length : Z)
| InfoCheckpointDetected (last_checkpoint : option string).

(** [__get_max_seq_length]: the value and what was logged. *)
Definition get_max_seq_length (requested model_max_length : Z)
  : Z * list LogRecord :=
  let logged :=
    if requested >? model_max_length
    then [WarnMaxSeqLength requested model_max_length]
    else [] in
  (Z.min requested model_max_length, logged).

(** [name in column_names] *)
Definition py_in (name : string) (column_names : list string) : bool :=
  bool_decide (name ∈ column_names).

(** [__get_qcas] *)
Definition get_qcas (column_names : list string)
  : result (string * string * string) :=
  question_column_name <-
    (if py_in "question" column_names then Ok "question"
     else py_get column_names 0) ;;
  context_column_name <-
    (if py_in "context" column_names then Ok "context"
     else py_get column_names 1) ;;
  answer_column_name <-
    (if py_in "answers" column_names then Ok "answers"
     else py_get column_names 2) ;;
  Ok (question_column_name, context_column_name, answer_column_name).

(** The fields of [TrainingArguments] read by the script. *)
Record TrainingArguments : Type := {
  output_dir : string;
  do_train : bool;
  overwrite_output_dir : bool;
  resume_from_checkpoint : option string
}.

Section Checkpoint.

(** What the file system answers: [os.path.isdir], [os.listdir], and the
    library's [get_last_checkpoint]. *)
Variable isdir : string -> bool.
Variable listdir : string -> list string.
Variable find_last_checkpoint : string -> option string.

(** [__get_last_checkpoint]: the checkpoint and what was logged. *)
Definition get_last_checkpoint (training_args : TrainingArguments)
  : result (option string * list LogRecord) :=
  if negb (isdir (output_dir training_args))
     || negb (do_train training_args)
     || overwrite_output_dir training_args
     || bool_decide (resume_from_checkpoint training_args <> None)
  then Ok (None, [])
  else
    let last_checkpoint := find_last_checkpoint (output_dir training_args) in
    if bool_decide (last_checkpoint = None)
       && (len (listdir (output_dir training_args)) >? 0)
    then Raise ValueError
    else Ok (last_checkpoint, [InfoCheckpointDetected last_checkpoint]).

End Checkpoint.

(** [metrics["train_samples"]] and its two siblings in [main]:
    [min(max_samples if max_samples is not None else len(dataset),
    len(dataset))]. *)
Definition samples_metric {A : Type} (max_samples : option Z)
    (dataset : list A) : Z :=
  Z.min (match max_samples with Some n => n | None => len dataset end)
        (len dataset).

(** ** Data files *)

(** Exceptions of the argument checks, beside the built-in ones. *)
Inductive error : Type :=
| Builtin (e : exn)
| AssertionError
| UnboundLocalError.

Inductive outcome (A : Type) : Type :=
| Done (a : A)
| Failed (e : error).

Arguments Done {A} a.
Arguments Failed {A} e.

Definition and_then {A B : Type} (m : outcome A) (k : A -> outcome B)
  : outcome B :=
  match m with
  | Done a => k a
  | Failed e => Failed e
  end.

(** [s.split(".")] *)
Fixpoint split_dot (s : string) : list string :=
  match s with
  | EmptyString => [EmptyString]
  | String c s' =>
      if Ascii.eqb c "."%char then EmptyString :: split_dot s'
      else
        match split_dot s' with
        | piece :: pieces => String c piece :: pieces
        | [] => [String c EmptyString]
        end
  end.

(** [l[-1]] *)
Definition py_last {A : Type} (l : list A) : outcome A :=
  match last l with
  | Some x => Done x
  | None => Failed (Builtin IndexError)
  end.

(** The data sources of [DataTrainingArguments]. *)
Record DataFiles : Type := {
  dataset_name : option string;
  dataset_config_name : option string;
  train_file : option string;
  validation_file : option string;
  test_file : option string
}.

(** [extension = file.split(".")[-1]; assert extension in ["csv", "json"]] *)
Definition check_file (file : option string) : outcome unit :=
  match file with
  | None => Done tt
  | Some name =>
      and_then (py_last (split_dot name)) (fun extension =>
        if bool_decide (extension ∈ ["csv"; "json"]) then Done tt
        else Failed AssertionError)
  end.

(** [DataTrainingArguments.__post_init__] *)
Definition post_init (args : DataFiles) : outcome unit :=
  if bool_decide (dataset_name args = None)
     && bool_decide (train_file args = None)
     && bool_decide (validation_file args = None)
     && bool_decide (test_file args = None)
  then Failed (Builtin ValueError)
  else
    and_then (check_file (train_file args)) (fun _ =>
    and_then (check_file (validation_file args)) (fun _ =>
    check_file (test_file args))).

(** The call of [load_dataset] made by [__get_datasets]. *)
Inductive LoadRequest : Type :=
| LoadFromHub (name : string) (config : option string)
| LoadFromFiles (extension : string) (data_files : gmap string string).

(** One [if file is not None:] block of [__get_datasets]: the entry of
    [data_files] and the rebinding of [extension]. *)
Definition add_data_file (key : string) (file : option string)
    (st : gmap string string * option string)
  : outcome (gmap string string * option string) :=
  match file with
  | None => Done st
  | Some name =>
      and_then (py_last (split_dot name)) (fun extension =>
        Done (<[key := name]> (fst st), Some extension))
  end.

(** [__get_datasets], up to the call of [load_dataset]. *)
Definition get_datasets (args : DataFiles) : outcome LoadRequest :=
  match dataset_name args with
  | Some name => Done (LoadFromHub name (dataset_config_name args))
  | None =>
      and_then (add_data_file "train" (train_file args) (∅, None)) (fun st =>
      and_then (add_data_file "validation" (validation_file args) st) (fun st =>
      and_then (add_data_file "test" (test_file args) st) (fun st =>
        match snd st with
        | Some extension => Done (LoadFromFiles extension (fst st))
        | None => Failed UnboundLocalError
        end)))
  end.

(** ** Specification predicates *)

(** [k] is the first position flagged as context. *)
Definition first_context (pad_on_right : bool) (sids : list (option Z))
    (k : nat) : Prop :=
  sids !! k = Some (Some (context_index pad_on_right)) /\
  forall j, (j < k)%nat -> sids !! j <> Some (Some (context_index pad_on_right)).

(** [k] is the last position flagged as context. *)
Definition last_context (pad_on_right : bool) (sids : list (option Z))
    (k : nat) : Prop :=
  sids !! k = Some (Some (context_index pad_on_right)) /\
  forall j, (k < j)%nat -> sids !! j <> Some (Some (context_index pad_on_right)).

(** The character span read back from a pair of token positions. *)
Definition char_span (offsets : list offset) (s e : Z) : option (Z * Z) :=
  if (0 <=? s) && (0 <=? e) then
    match offsets !! Z.to_nat s, offsets !! Z.to_nat e with
    | Some os, Some oe => Some (fst os, snd oe)
    | _, _ => None
    end
  else None.

(** What the loop has done to feature [i]: its example id is recorded and
    its offsets are kept at context positions and blanked elsewhere. *)
Definition blanked (pad_on_right : bool) (examples : list Example)
    (enc : BatchEncoding) (i : nat) (st : ValidationFeatures) : Prop :=
  forall (sids : list (option Z)) (offs : list offset),
    sequence_ids enc !! i = Some sids ->
    offset_mapping enc !! i = Some offs ->
    (exists k eid,
       overflow_to_sample_mapping enc !! i = Some k /\
       py_get (map ex_id examples) k = Ok eid /\
       example_id st !! i = Some eid) /\
    (exists new : list (option offset),
       val_offset_mapping st !! i = Some new /\
       length new = length offs /\
       forall (p : nat) (o : offset), offs !! p = Some o ->
         exists x, sids !! p = Some x /\
           new !! p =
           Some (if bool_decide (x = Some (context_index pad_on_right))
                 then Some o else None)).

(** The state of the loop of [prepare_validation_features] before its
    iteration [j]. *)
Definition blank_inv (pad_on_right : bool) (examples : list Example)
    (enc : BatchEncoding) (j : nat) (st : ValidationFeatures) : Prop :=
  length (example_id st) = j /\
  (forall i, (j <= i)%nat ->
     val_offset_mapping st !! i =
     map (map Some) (offset_mapping enc) !! i) /\
  (forall i, (i < j)%nat -> blanked pad_on_right examples enc i st).

(** Feature [i] of an encoding, for an example with a gold answer: its
    token ids [ids] and sequence ids [sids], the start [sc] and the text
    [t] of the first gold answer of its example, its first and last context
    positions [ts] and [te], and its CLS position [c]. *)
Definition gold_feature (cls_token_id : Z) (pad_on_right : bool)
    (answers : list Answers) (enc : BatchEncoding) (i : nat)
    (ids : list Z) (sids : list (option Z)) (sc : Z) (t : str)
    (ts te : nat) (c : Z) : Prop :=
  input_ids enc !! i = Some ids /\
  sequence_ids enc !! i = Some sids /\
  (exists k ans rest_start rest_text,
     overflow_to_sample_mapping enc !! i = Some k /\
     py_get answers k = Ok ans /\
     answer_start ans = sc :: rest_start /\
     text ans = t :: rest_text) /\
  length ids = length sids /\
  first_context pad_on_right sids ts /\
  last_context pad_on_right sids te /\
  py_list_index ids cls_token_id = Ok c.

(** The shape of the columns of [prepare_validation_features] before its
    iteration [j]: the token ids are those of the tokenizer, one example id
    per feature done, and the offsets of the features still to do are those
    of the tokenizer. *)
Definition shape_inv (enc : BatchEncoding) (j : nat)
    (st : ValidationFeatures) : Prop :=
  val_input_ids st = input_ids enc /\
  length (example_id st) = j /\
  length (val_offset_mapping st) = length (offset_mapping enc) /\
  (forall i, (j <= i)%nat ->
     val_offset_mapping st !! i =
     map (map Some) (offset_mapping enc) !! i).

(** What [prepare_validation_features] needs of the tokenizer's output for
    a batch: one entry per feature in every column, sequence ids for every
    offset, and a sample index that is an index of the batch. *)
Definition encoding_contract (examples : list Example)
    (enc : BatchEncoding) : Prop :=
  length (sequence_ids enc) = length (input_ids enc) /\
  length (offset_mapping enc) = length (input_ids enc) /\
  length (overflow_to_sample_mapping enc) = length (input_ids enc) /\
  (forall i (sids : list (option Z)) (offs : list offset),
     sequence_ids enc !! i = Some sids ->
     offset_mapping enc !! i = Some offs ->
     (length offs <= length sids)%nat) /\
  (forall i k,
     overflow_to_sample_mapping enc !! i = Some k ->
     - len examples <= k < len examples).

(** A file name the argument check lets through: "csv" or "json" itself,
    or a name with one of them after its last dot. *)
Definition csv_or_json (name : string) : Prop :=
  exists extension,
    extension ∈ ["csv"; "json"] /\
    (name = extension \/
     exists stem, name = (stem +:+ ("." +:+ extension))%string).

(** The file whose extension [__get_datasets] ends with: the last one
    given among train, validation and test. *)
Definition last_given_file (args : DataFiles) : option string :=
  match test_file args with
  | Some name => Some name
  | None =>
      match validation_file args with
      | Some name => Some name
      | None => train_file args
      end
  end.

(** ** Sample data *)

(** One feature: [CLS] question [SEP] two context tokens [SEP]. *)
Definition sample_encoding : BatchEncoding :=
  {| input_ids := [[101; 7; 102; 8; 9; 102]];
     sequence_ids := [[None; Some 0; None; Some 1; Some 1; None]];
     offset_mapping := [[(0, 0); (0, 4); (0, 0); (0, 5); (6, 8); (0, 0)]];
     overflow_to_sample_mapping := [0] |}.

(** The same feature with every token outside the context. *)
Definition sample_encoding_no_context : BatchEncoding :=
  {| input_ids := [[101; 7; 102; 8; 9; 102]];
     sequence_ids := [[None; Some 0; None; Some 0; Some 0; None]];
     offset_mapping := [[(0, 0); (0, 4); (0, 0); (0, 5); (6, 8); (0, 0)]];
     overflow_to_sample_mapping := [0] |}.

(** A gold answer of [n] characters at [start]. *)
Definition gold (start : Z) (n : nat) : Answers :=
  {| answer_start := [start]; text := [replicate n 97%N] |}.

Definition no_gold : Answers := {| answer_start := []; text := [] |}.

(** A tokenizer for small runs: a second text of [n] characters gives
    [max 1 n] features of three tokens each. *)
Definition sample_tokenizer : Tokenizer :=
  fun _ second _ _ _ _ =>
    let mapping :=
      concat (imap (fun i c => replicate (Nat.max 1 (length c)) (Z.of_nat i))
                second) in
    {| input_ids := map (fun _ => [101; 5; 102]) mapping;
       sequence_ids := map (fun _ => [None; Some 1; None]) mapping;
       offset_mapping := map (fun _ => [(0, 0); (0, 1); (0, 0)]) mapping;
       overflow_to_sample_mapping := mapping |}.

Definition sample_example (name : string) (context_length : nat) : Example :=
  {| ex_id := name; ex_question := [113%N];
     ex_context := replicate context_length 99%N; ex_answers := no_gold |}.

Definition sample_args (limit : option Z) (negative : bool) : DataArguments :=
  {| max_seq_length := 384; doc_stride := 128; pad_to_max_length := true;
     max_train_samples := limit; max_eval_samples := limit;
     max_predict_samples := limit; version_2_with_negative := negative;
     n_best_size := 20; max_answer_length := 30;
     null_score_diff_threshold := 0%float |}.

(** A stand-in for the answer extractor: the empty answer per example. *)
Definition sample_postprocess (examples : list Example) (_ : list Feature)
    (_ : unit) (_ : bool) (_ _ : Z) (_ : float) (_ : string) (_ : bool)
    (_ : string) : result (list (string * str)) :=
  Ok (map (fun ex => (ex_id ex, [])) examples).

(** * Properties *)

(** ** The error monad *)

Lemma bind_Ok_inv {A B : Type} (m : result A) (k : A -> result B) (b : B) :
  bind m k = Ok b -> exists a, m = Ok a /\ k a = Ok b.
Proof. destruct m as [a|e|]; simpl; intros H; try discriminate. eauto. Qed.

Lemma bind_returns {A B : Type} (m : result A) (k : A -> result B) :
  returns m -> (forall a, m = Ok a -> returns (k a)) -> returns (bind m k).
Proof.
  unfold returns. destruct m as [a|e|]; simpl; intros Hm Hk.
  - now apply Hk.
  - discriminate.
  - congruence.
Qed.

Lemma returns_Ok {A : Type} (a : A) : returns (Ok a).
Proof. discriminate. Qed.

Lemma returns_Raise {A : Type} (e : exn) : returns (@Raise A e).
Proof. discriminate. Qed.

Lemma returns_cases {A : Type} (r : result A) :
  returns r -> (exists a, r = Ok a) \/ (exists e, r = Raise e).
Proof. destruct r; unfold returns; intros H; eauto. congruence. Qed.

Create HintDb py discriminated.
#[local] Hint Resolve returns_Ok returns_Raise : py.

(** Splits a hypothesis [bind m k = Ok b] into its two steps. *)
Tactic Notation "bind_inv" hyp(H) :=
  let a := fresh "v" in
  let Ha := fresh "E" in
  apply bind_Ok_inv in H; destruct H as (a & Ha & H); simpl in H.

Tactic Notation "bind_inv" hyp(H) "as" ident(a) ident(Ha) :=
  apply bind_Ok_inv in H; destruct H as (a & Ha & H); simpl in H.

(** ** Indexing *)

Lemma len_nonneg {A : Type} (l : list A) : 0 <= len l.
Proof. unfold len. lia. Qed.

Lemma py_get_returns {A : Type} (l : list A) (i : Z) : returns (py_get l i).
Proof.
  unfold py_get. destruct (_ && _); auto with py.
  destruct (l !! _); auto with py.
Qed.
#[local] Hint Resolve py_get_returns : py.

Lemma py_get_of_nat {A : Type} (l : list A) (k : nat) :
  py_get l (Z.of_nat k) =
  match l !! k with Some x => Ok x | None => Raise IndexError end.
Proof.
  unfold py_get, len.
  destruct (Z.ltb_spec (Z.of_nat k) 0) as [?|_]; [lia|].
  rewrite Nat2Z.id.
  destruct (l !! k) eqn:E.
  - apply lookup_lt_Some in E.
    destruct (Z.leb_spec 0 (Z.of_nat k)); [|lia].
    destruct (Z.ltb_spec (Z.of_nat k) (Z.of_nat (length l))); [|lia].
    reflexivity.
  - now destruct (_ && _).
Qed.

Lemma py_get_lookup {A : Type} (l : list A) (k : nat) (x : A) :
  l !! k = Some x -> py_get l (Z.of_nat k) = Ok x.
Proof. intros H. now rewrite py_get_of_nat, H. Qed.

Lemma py_get_head {A : Type} (x : A) (l : list A) : py_get (x :: l) 0 = Ok x.
Proof. exact (py_get_lookup (x :: l) 0 x eq_refl). Qed.

Lemma py_get_Ok_inv {A : Type} (l : list A) (i : Z) (x : A) :
  py_get l i = Ok x ->
  - len l <= i < len l /\
  l !! Z.to_nat (if i <? 0 then i + len l else i) = Some x.
Proof.
  unfold py_get.
  set (j := if i <? 0 then i + len l else i).
  assert (Hj : j = i + len l /\ i < 0 \/ j = i /\ 0 <= i).
  { unfold j. destruct (Z.ltb_spec i 0); lia. }
  clearbody j.
  destruct (Z.leb_spec 0 j); destruct (Z.ltb_spec j (len l));
    simpl; try discriminate.
  destruct (l !! Z.to_nat j) eqn:E; try discriminate.
  intros [= ->]. split; [lia|reflexivity].
Qed.

Lemma py_get_Ok_lookup {A : Type} (l : list A) (k : nat) (x : A) :
  py_get l (Z.of_nat k) = Ok x -> l !! k = Some x.
Proof.
  rewrite py_get_of_nat. destruct (l !! k); intros H; now inversion H.
Qed.

Lemma py_get_Ok_elem {A : Type} (l : list A) (i : Z) (x : A) :
  py_get l i = Ok x -> exists k : nat, l !! k = Some x.
Proof. intros H. apply py_get_Ok_inv in H as [_ H]. eauto. Qed.

(** ** Loops *)

Lemma while_step {S : Type} (fuel : nat) (cond : S -> result bool)
    (body : S -> S) (s : S) :
  while (Datatypes.S fuel) cond body s =
  bind (cond s) (fun b => if b then while fuel cond body (body s) else Ok s).
Proof. reflexivity. Qed.

Lemma while_Ok_cond {S : Type} (fuel : nat) (cond : S -> result bool)
    (body : S -> S) (s s' : S) :
  while fuel cond body s = Ok s' -> cond s' = Ok false.
Proof.
  revert s. induction fuel as [|fuel IH]; intros s; simpl; [discriminate|].
  destruct (cond s) as [[|]| |] eqn:E; simpl; try discriminate.
  - apply IH.
  - now intros [= <-].
Qed.

(** An upward loop whose test can only hold below [bound] stops. *)
Lemma while_up_returns (cond : Z -> result bool) (bound : Z) :
  (forall k, returns (cond k)) ->
  (forall k, cond k = Ok true -> k < bound) ->
  forall (fuel : nat) (k : Z),
    k <= bound -> bound - k < Z.of_nat fuel ->
    returns (while fuel cond Z.succ k).
Proof.
  intros Hret Hb. induction fuel as [|fuel IH]; intros k Hk Hf; [lia|].
  rewrite while_step. apply bind_returns; [apply Hret|].
  intros [|] Hc; [|auto with py].
  apply Hb in Hc. apply IH; lia.
Qed.

(** A downward loop whose test can only hold from [bound] on stops. *)
Lemma while_down_returns (cond : Z -> result bool) (bound : Z) :
  (forall k, returns (cond k)) ->
  (forall k, cond k = Ok true -> bound <= k) ->
  forall (fuel : nat) (k : Z),
    bound - 1 <= k -> k - bound + 1 < Z.of_nat fuel ->
    returns (while fuel cond Z.pred k).
Proof.
  intros Hret Hb. induction fuel as [|fuel IH]; intros k Hk Hf; [lia|].
  rewrite while_step. apply bind_returns; [apply Hret|].
  intros [|] Hc; [|auto with py].
  apply Hb in Hc. apply IH; lia.
Qed.

(** An upward loop stops at the first position where the test fails. *)
Lemma while_up_first (cond : Z -> result bool) (fuel : nat) (k t : Z) :
  k <= t -> t - k < Z.of_nat fuel ->
  (forall j, k <= j < t -> cond j = Ok true) ->
  cond t = Ok false ->
  while fuel cond Z.succ k = Ok t.
Proof.
  revert k. induction fuel as [|fuel IH]; intros k Hk Hf Htrue Hfalse; [lia|].
  rewrite while_step.
  destruct (Z.eq_dec k t) as [->|Hne].
  - now rewrite Hfalse.
  - rewrite Htrue by lia. simpl. apply IH; try lia; auto.
    intros j Hj. apply Htrue. lia.
Qed.

(** A downward loop stops at the first position where the test fails. *)
Lemma while_down_first (cond : Z -> result bool) (fuel : nat) (k t : Z) :
  t <= k -> k - t < Z.of_nat fuel ->
  (forall j, t < j <= k -> cond j = Ok true) ->
  cond t = Ok false ->
  while fuel cond Z.pred k = Ok t.
Proof.
  revert k. induction fuel as [|fuel IH]; intros k Hk Hf Htrue Hfalse; [lia|].
  rewrite while_step.
  destruct (Z.eq_dec k t) as [->|Hne].
  - now rewrite Hfalse.
  - rewrite Htrue by lia. simpl. apply IH; try lia; auto.
    intros j Hj. apply Htrue. lia.
Qed.

(** ** The labelling loop returns *)

Lemma py_list_index_returns (l : list Z) (x : Z) : returns (py_list_index l x).
Proof.
  induction l as [|y l IH]; simpl; auto with py.
  destruct (y =? x); auto with py.
  apply bind_returns; auto with py.
Qed.
#[local] Hint Resolve py_list_index_returns : py.

Section TrainFacts.

Variable cls_token_id : Z.
Variable pad_on_right : bool.

Lemma not_context_returns sids k : returns (not_context pad_on_right sids k).
Proof. unfold not_context. apply bind_returns; auto with py. Qed.

Lemma starts_before_returns offsets c k : returns (starts_before offsets c k).
Proof.
  unfold starts_before. destruct (k <? len offsets); auto with py.
  apply bind_returns; auto with py.
Qed.

Lemma ends_after_returns offsets c k : returns (ends_after offsets c k).
Proof. unfold ends_after. apply bind_returns; auto with py. Qed.

Lemma not_context_Ok_range sids k b :
  not_context pad_on_right sids k = Ok b -> - len sids <= k < len sids.
Proof.
  unfold not_context. intros H. bind_inv H.
  now apply py_get_Ok_inv in E as [? _].
Qed.

Lemma not_context_false sids k :
  not_context pad_on_right sids k = Ok false ->
  py_get sids k = Ok (Some (context_index pad_on_right)).
Proof.
  unfold not_context. intros H. bind_inv H. rewrite E. f_equal.
  injection H as H. apply negb_false_iff, bool_decide_eq_true in H.
  assumption.
Qed.

Lemma starts_before_true_range offsets c k :
  starts_before offsets c k = Ok true -> k < len offsets.
Proof.
  unfold starts_before. destruct (Z.ltb_spec k (len offsets)); [lia|].
  discriminate.
Qed.

Lemma ends_after_Ok_range offsets c k b :
  ends_after offsets c k = Ok b -> - len offsets <= k.
Proof.
  unfold ends_after. intros H. bind_inv H.
  apply py_get_Ok_inv in E as [? _]. lia.
Qed.

Lemma answer_in_span_returns offsets ts te sc ec :
  returns (answer_in_span offsets ts te sc ec).
Proof.
  unfold answer_in_span. apply bind_returns; auto with py.
  intros o _. destruct (fst o <=? sc); auto with py.
  apply bind_returns; auto with py.
Qed.

Lemma answer_in_span_true offsets ts te sc ec :
  answer_in_span offsets ts te sc ec = Ok true ->
  exists o o', py_get offsets ts = Ok o /\ py_get offsets te = Ok o' /\
               fst o <= sc /\ ec <= snd o'.
Proof.
  unfold answer_in_span. intros H. bind_inv H.
  destruct (Z.leb_spec (fst v) sc); [|discriminate].
  bind_inv H. injection H as H.
  exists v, v0. repeat split; auto. lia.
Qed.

(** Every loop of [label_feature] stops within the fuel it is given. *)
Lemma label_feature_returns answers enc i offsets st :
  returns (label_feature cls_token_id pad_on_right answers enc i offsets st).
Proof.
  unfold label_feature.
  apply bind_returns; auto with py. intros ids _.
  apply bind_returns; auto with py. intros cls_index _.
  apply bind_returns; auto with py. intros sids _.
  apply bind_returns; auto with py. intros sample_index _.
  apply bind_returns; auto with py. intros ans _.
  destruct (len (answer_start ans) =? 0); auto with py.
  apply bind_returns; auto with py. intros start_char _.
  apply bind_returns; auto with py. intros answer_text _.
  pose proof (len_nonneg ids). pose proof (len_nonneg sids).
  pose proof (len_nonneg offsets).
  assert (Hfuel : Z.of_nat (loop_fuel ids sids offsets) =
                  len ids + len sids + len offsets + 2).
  { unfold loop_fuel, len. lia. }
  apply bind_returns.
  { apply while_up_returns with (bound := len sids);
      [apply not_context_returns| |lia|lia].
    intros k Hk. now apply not_context_Ok_range in Hk. }
  intros ts Hts. apply while_Ok_cond, not_context_Ok_range in Hts.
  apply bind_returns.
  { apply while_down_returns with (bound := - len sids);
      [apply not_context_returns| |lia|lia].
    intros k Hk. now apply not_context_Ok_range in Hk. }
  intros te Hte. apply while_Ok_cond, not_context_Ok_range in Hte.
  apply bind_returns; [apply answer_in_span_returns|].
  intros [|] Hin; simpl; auto with py.
  apply answer_in_span_true in Hin as (o & o' & Ho & Ho' & _ & _).
  apply py_get_Ok_inv in Ho as [Ho _]. apply py_get_Ok_inv in Ho' as [Ho' _].
  apply bind_returns.
  { apply while_up_returns with (bound := len offsets);
      [apply starts_before_returns| |lia|lia].
    intros k Hk. now apply starts_before_true_range in Hk. }
  intros ts' _.
  apply bind_returns; auto with py.
  apply while_down_returns with (bound := - len offsets);
    [apply ends_after_returns| |lia|lia].
  intros k Hk. now apply ends_after_Ok_range in Hk.
Qed.

Lemma for_enumerate_returns {A S : Type} (body : nat -> A -> S -> result S) :
  (forall i x s, returns (body i x s)) ->
  forall l i s, returns (for_enumerate l i body s).
Proof.
  intros Hb. induction l as [|x l IH]; intros i s; simpl; auto with py.
  apply bind_returns; auto.
Qed.

Lemma label_features_returns answers enc :
  returns (label_features cls_token_id pad_on_right answers enc).
Proof.
  apply for_enumerate_returns. intros. apply label_feature_returns.
Qed.

End TrainFacts.

(** ** One label pair per feature *)

Section LabelLoop.

Variable cls_token_id : Z.
Variable pad_on_right : bool.
Variable examples_answers : list Answers.
Variable enc : BatchEncoding.

Let step := label_feature cls_token_id pad_on_right examples_answers enc.

(** On every branch one start and one end label are appended. *)
Lemma label_feature_appends i offsets st st' :
  step i offsets st = Ok st' ->
  exists s e, st' = append_end (append_start st s) e.
Proof.
  unfold step, label_feature. intros H.
  do 5 bind_inv H.
  destruct (len (answer_start _) =? 0); [injection H as <-; eauto|].
  do 5 bind_inv H.
  destruct v8; simpl in H; [|injection H as <-; eauto].
  do 2 bind_inv H. injection H as <-. eauto.
Qed.

Lemma append_labels_inj st s e s' e' :
  append_end (append_start st s) e = append_end (append_start st s') e' ->
  s = s' /\ e = e'.
Proof.
  unfold append_end, append_start. simpl. intros [= Hs He].
  apply app_inv_head in Hs, He. split; congruence.
Qed.

Lemma label_loop_lengths l : forall i st st',
  for_enumerate l i step st = Ok st' ->
  length (start_positions st') = (length (start_positions st) + length l)%nat /\
  length (end_positions st') = (length (end_positions st) + length l)%nat.
Proof.
  induction l as [|x l IH]; intros i st st' H; simpl in H.
  - injection H as <-. simpl. lia.
  - bind_inv H. apply label_feature_appends in E as (s & e & ->).
    apply IH in H as [Hs He]. simpl in Hs, He.
    rewrite length_app in Hs, He. simpl in *. lia.
Qed.

Lemma label_loop_prefix l : forall i st st',
  for_enumerate l i step st = Ok st' ->
  start_positions st `prefix_of` start_positions st' /\
  end_positions st `prefix_of` end_positions st'.
Proof.
  induction l as [|x l IH]; intros i st st' H; simpl in H.
  - injection H as <-. split; reflexivity.
  - bind_inv H. apply label_feature_appends in E as (s & e & ->).
    apply IH in H as [Hs He]. simpl in Hs, He.
    split; (etransitivity; [|eassumption]); now apply prefix_app_r.
Qed.

(** The labels of feature [k] sit at position [k] of the two columns. *)
Lemma label_loop_lookup l : forall i st st' k offsets,
  for_enumerate l i step st = Ok st' ->
  l !! k = Some offsets ->
  exists st1 s e,
    step (i + k)%nat offsets st1 = Ok (append_end (append_start st1 s) e) /\
    start_positions st' !! (length (start_positions st) + k)%nat = Some s /\
    end_positions st' !! (length (end_positions st) + k)%nat = Some e.
Proof.
  induction l as [|x l IH]; intros i st st' k offsets H Hk; [done|].
  simpl in H. bind_inv H.
  destruct k as [|k]; simpl in Hk.
  - injection Hk as ->.
    destruct (label_feature_appends _ _ _ _ E) as (s & e & ->).
    exists st, s, e. rewrite !Nat.add_0_r. split; [assumption|].
    apply label_loop_prefix in H as [Hs He]. simpl in Hs, He.
    split.
    + eapply prefix_lookup_Some; [|exact Hs].
      now rewrite lookup_app_r, Nat.sub_diag by lia.
    + eapply prefix_lookup_Some; [|exact He].
      now rewrite lookup_app_r, Nat.sub_diag by lia.
  - destruct (label_feature_appends _ _ _ _ E) as (s0 & e0 & ->).
    destruct (IH _ _ _ _ _ H Hk) as (st1 & s & e & Hstep & Hs & He).
    exists st1, s, e. simpl in Hs, He. rewrite length_app in Hs, He.
    simpl in Hs, He.
    replace (i + S k)%nat with (S i + k)%nat by lia.
    split; [assumption|].
    split; [rewrite <- Hs|rewrite <- He]; f_equal; lia.
Qed.

(** A label pair computed for a feature whatever the labels so far is the
    pair found in the returned columns. *)
Lemma label_features_at i offsets s e labels :
  (forall st, step i offsets st = Ok (append_end (append_start st s) e)) ->
  offset_mapping enc !! i = Some offsets ->
  label_features cls_token_id pad_on_right examples_answers enc = Ok labels ->
  start_positions labels !! i = Some s /\ end_positions labels !! i = Some e.
Proof.
  intros Hst Hi H. unfold label_features in H.
  destruct (label_loop_lookup _ _ _ _ _ _ H Hi) as (st1 & s' & e' & H1 & Hs & He).
  simpl in *. rewrite Hst in H1.
  assert (Heq : append_end (append_start st1 s) e =
                append_end (append_start st1 s') e') by congruence.
  apply append_labels_inj in Heq as [-> ->]. auto.
Qed.

End LabelLoop.

(** ** Locating the context window *)

Section Window.

Variable cls_token_id : Z.
Variable pad_on_right : bool.

Lemma not_context_at sids (j : nat) x :
  sids !! j = Some x ->
  not_context pad_on_right sids (Z.of_nat j) =
  Ok (negb (bool_decide (x = Some (context_index pad_on_right)))).
Proof. intros H. unfold not_context. now rewrite (py_get_lookup _ _ _ H). Qed.

Lemma not_context_other sids (j k : nat) :
  (j < length sids)%nat ->
  sids !! j <> Some (Some (context_index pad_on_right)) ->
  not_context pad_on_right sids (Z.of_nat j) = Ok true.
Proof.
  intros Hlt Hne. destruct (lookup_lt_is_Some_2 sids j Hlt) as [x Hx].
  rewrite (not_context_at _ _ _ Hx). f_equal.
  apply negb_true_iff, bool_decide_eq_false. congruence.
Qed.

Lemma scan_first_context sids ts fuel :
  first_context pad_on_right sids ts -> (ts < fuel)%nat ->
  while fuel (not_context pad_on_right sids) Z.succ 0 = Ok (Z.of_nat ts).
Proof.
  intros [Hts Hbefore] Hfuel.
  pose proof (lookup_lt_Some _ _ _ Hts) as Hlen.
  apply while_up_first; try lia.
  - intros j Hj. rewrite <- (Z2Nat.id j) by lia.
    apply (not_context_other sids _ 0%nat); [lia|]. apply Hbefore. lia.
  - rewrite (not_context_at _ _ _ Hts). f_equal.
    apply negb_false_iff, bool_decide_eq_true. reflexivity.
Qed.

Lemma scan_last_context sids te fuel :
  last_context pad_on_right sids te -> (length sids < fuel)%nat ->
  while fuel (not_context pad_on_right sids) Z.pred (len sids - 1) =
  Ok (Z.of_nat te).
Proof.
  intros [Hte Hafter] Hfuel.
  pose proof (lookup_lt_Some _ _ _ Hte) as Hlen. unfold len.
  apply while_down_first; try lia.
  - intros j Hj. rewrite <- (Z2Nat.id j) by lia.
    apply (not_context_other sids _ 0%nat); [lia|]. apply Hafter. lia.
  - rewrite (not_context_at _ _ _ Hte). f_equal.
    apply negb_false_iff, bool_decide_eq_true. reflexivity.
Qed.

(** [label_feature] on a feature of an example with a gold answer, once
    the window has been located. *)
Lemma label_feature_with_gold answers enc i offsets st
    ids sids k ans sc t rest_start rest_text ts te c :
  input_ids enc !! i = Some ids ->
  sequence_ids enc !! i = Some sids ->
  overflow_to_sample_mapping enc !! i = Some k ->
  py_get answers k = Ok ans ->
  answer_start ans = sc :: rest_start ->
  text ans = t :: rest_text ->
  length ids = length sids ->
  first_context pad_on_right sids ts ->
  last_context pad_on_right sids te ->
  py_list_index ids cls_token_id = Ok c ->
  label_feature cls_token_id pad_on_right answers enc i offsets st =
  bind (answer_in_span offsets (Z.of_nat ts) (Z.of_nat te) sc (sc + len t))
    (fun inside =>
       if negb inside then Ok (append_end (append_start st c) c)
       else
         bind (while (loop_fuel ids sids offsets) (starts_before offsets sc)
                 Z.succ (Z.of_nat ts))
           (fun tsi =>
              bind (while (loop_fuel ids sids offsets)
                      (ends_after offsets (sc + len t)) Z.pred (Z.of_nat te))
                (fun tei =>
                   Ok (append_end (append_start st (tsi - 1)) (tei + 1))))).
Proof.
  intros Hids Hsids Hk Hans Hstart Htext Hlen Hfirst Hlast Hcls.
  unfold label_feature.
  rewrite (py_get_lookup _ _ _ Hids). simpl. rewrite Hcls. simpl.
  rewrite (py_get_lookup _ _ _ Hsids). simpl.
  rewrite (py_get_lookup _ _ _ Hk). simpl. rewrite Hans. simpl.
  rewrite Hstart, Htext.
  destruct (Z.eqb_spec (len (sc :: rest_start)) 0) as [H0|_];
    [unfold len in H0; simpl in H0; lia|].
  rewrite !py_get_head. simpl.
  pose proof (lookup_lt_Some _ _ _ (proj1 Hfirst)) as Hts.
  rewrite (scan_first_context sids ts) by (auto; unfold loop_fuel; lia).
  simpl. replace (len ids) with (len sids) by (unfold len; lia).
  rewrite (scan_last_context sids te) by (auto; unfold loop_fuel; lia).
  reflexivity.
Qed.

End Window.

(** ** The fallback label *)

(** C3. For an example whose gold answer set is empty, every feature made
    from it is labelled with the CLS index at both ends: the loop body
    appends the pair [(cls_index, cls_index)] whatever the labels so far,
    and that pair is found at the feature's position of the returned
    columns. *)
Theorem no_gold_answer_labels_cls cls_token_id pad_on_right answers enc
    i offsets ids sids k ans c :
  input_ids enc !! i = Some ids ->
  sequence_ids enc !! i = Some sids ->
  overflow_to_sample_mapping enc !! i = Some k ->
  py_get answers k = Ok ans ->
  answer_start ans = [] ->
  py_list_index ids cls_token_id = Ok c ->
  (forall st,
     label_feature cls_token_id pad_on_right answers enc i offsets st =
     Ok (append_end (append_start st c) c)) /\
  (forall labels,
     offset_mapping enc !! i = Some offsets ->
     label_features cls_token_id pad_on_right answers enc = Ok labels ->
     start_positions labels !! i = Some c /\
     end_positions labels !! i = Some c).
Proof.
  intros Hids Hsids Hk Hans Hnone Hcls.
  assert (Hstep : forall st,
    label_feature cls_token_id pad_on_right answers enc i offsets st =
    Ok (append_end (append_start st c) c)).
  { intros st. unfold label_feature.
    rewrite (py_get_lookup _ _ _ Hids). simpl. rewrite Hcls. simpl.
    rewrite (py_get_lookup _ _ _ Hsids). simpl.
    rewrite (py_get_lookup _ _ _ Hk). simpl. rewrite Hans. simpl.
    now rewrite Hnone. }
  split; [exact Hstep|].
  intros labels Hi H. eapply label_features_at; eauto.
Qed.

Lemma no_gold_answer_labels_cls_witness :
  (forall st,
     label_feature 101 true [no_gold] sample_encoding 0
       [(0, 0); (0, 4); (0, 0); (0, 5); (6, 8); (0, 0)] st =
     Ok (append_end (append_start st 0) 0)) /\
  (forall labels,
     offset_mapping sample_encoding !! 0%nat =
       Some [(0, 0); (0, 4); (0, 0); (0, 5); (6, 8); (0, 0)] ->
     label_features 101 true [no_gold] sample_encoding = Ok labels ->
     start_positions labels !! 0%nat = Some 0 /\
     end_positions labels !! 0%nat = Some 0).
Proof.
  apply (no_gold_answer_labels_cls 101 true [no_gold] sample_encoding 0%nat
           [(0, 0); (0, 4); (0, 0); (0, 5); (6, 8); (0, 0)]
           [101; 7; 102; 8; 9; 102]
           [None; Some 0; None; Some 1; Some 1; None] 0 no_gold 0);
    reflexivity.
Defined.

(** C2. For a feature of an example with a gold answer, when the span
    [start_char, start_char + len(text)) of the first gold answer is not
    contained in [offsets[ts][0], offsets[te][1]), with [ts] and [te] the
    first and the last position flagged as context, both labels are the
    CLS index. *)
Theorem out_of_span_labels_cls cls_token_id pad_on_right answers enc
    i (offsets : list offset) ids sids k ans sc t rest_start rest_text
    ts te (os oe : offset) c :
  input_ids enc !! i = Some ids ->
  sequence_ids enc !! i = Some sids ->
  overflow_to_sample_mapping enc !! i = Some k ->
  py_get answers k = Ok ans ->
  answer_start ans = sc :: rest_start ->
  text ans = t :: rest_text ->
  length ids = length sids ->
  first_context pad_on_right sids ts ->
  last_context pad_on_right sids te ->
  offsets !! ts = Some os ->
  offsets !! te = Some oe ->
  ~ (fst os <= sc /\ sc + len t <= snd oe) ->
  py_list_index ids cls_token_id = Ok c ->
  (forall st,
     label_feature cls_token_id pad_on_right answers enc i offsets st =
     Ok (append_end (append_start st c) c)) /\
  (forall labels,
     offset_mapping enc !! i = Some offsets ->
     label_features cls_token_id pad_on_right answers enc = Ok labels ->
     start_positions labels !! i = Some c /\
     end_positions labels !! i = Some c).
Proof.
  intros Hids Hsids Hk Hans Hstart Htext Hlen Hfirst Hlast Hos Hoe Hout Hcls.
  assert (Hstep : forall st,
    label_feature cls_token_id pad_on_right answers enc i offsets st =
    Ok (append_end (append_start st c) c)).
  { intros st.
    rewrite (label_feature_with_gold cls_token_id pad_on_right answers enc i
               offsets st ids sids k ans sc t rest_start rest_text ts te c)
      by assumption.
    unfold answer_in_span.
    rewrite (py_get_lookup _ _ _ Hos). simpl.
    destruct (Z.leb_spec (fst os) sc) as [Hle|Hgt]; [|reflexivity].
    rewrite (py_get_lookup _ _ _ Hoe). simpl.
    destruct (Z.geb_spec (snd oe) (sc + len t)) as [Hge|Hlt]; [|reflexivity].
    exfalso. apply Hout. lia. }
  split; [exact Hstep|].
  intros labels Hi H. eapply label_features_at; eauto.
Qed.

Lemma out_of_span_labels_cls_witness :
  (forall st,
     label_feature 101 true [gold 7 5] sample_encoding 0
       [(0, 0); (0, 4); (0, 0); (0, 5); (6, 8); (0, 0)] st =
     Ok (append_end (append_start st 0) 0)) /\
  (forall labels,
     offset_mapping sample_encoding !! 0%nat =
       Some [(0, 0); (0, 4); (0, 0); (0, 5); (6, 8); (0, 0)] ->
     label_features 101 true [gold 7 5] sample_encoding = Ok labels ->
     start_positions labels !! 0%nat = Some 0 /\
     end_positions labels !! 0%nat = Some 0).
Proof.
  apply (out_of_span_labels_cls 101 true [gold 7 5] sample_encoding 0%nat
           [(0, 0); (0, 4); (0, 0); (0, 5); (6, 8); (0, 0)]
           [101; 7; 102; 8; 9; 102]
           [None; Some 0; None; Some 1; Some 1; None] 0 (gold 7 5)
           7 (replicate 5 97%N) [] [] 3%nat 4%nat (0, 5) (6, 8) 0);
    try reflexivity.
  - split; [reflexivity|].
    intros [|[|[|j]]] Hj; simpl; try discriminate; lia.
  - split; [reflexivity|].
    intros [|[|[|[|[|[|j]]]]]] Hj; simpl; try discriminate; lia.
  - simpl. unfold len. simpl. lia.
Defined.

(** ** A feature without context tokens *)

Lemma for_enumerate_raises {A St : Type} (body : nat -> A -> St -> result St) :
  (forall i x s, returns (body i x s)) ->
  forall l i k x,
    l !! k = Some x ->
    (forall s, exists e, body (i + k)%nat x s = Raise e) ->
    forall s, exists e, for_enumerate l i body s = Raise e.
Proof.
  intros Hret. induction l as [|y l IH]; intros i k x Hk Hraise s; [done|].
  simpl. destruct k as [|k]; simpl in Hk.
  - injection Hk as ->. rewrite Nat.add_0_r in Hraise.
    destruct (Hraise s) as [e ->]. simpl. eauto.
  - destruct (returns_cases _ (Hret i y s)) as [[s' ->]|[e ->]]; simpl; eauto.
    apply (IH (S i) k x); auto.
    intros s0. replace (S i + k)%nat with (i + S k)%nat by lia. auto.
Qed.

(** C5. A feature of an example with a gold answer in which no token is
    flagged as context makes the labelling fail with an exception: the loop
    body raises whatever the labels so far, and so does the whole loop; no
    label is produced. *)
Theorem no_context_token_raises cls_token_id pad_on_right answers enc
    i (offsets : list offset) (sids : list (option Z)) k ans :
  offset_mapping enc !! i = Some offsets ->
  sequence_ids enc !! i = Some sids ->
  (forall j : nat, sids !! j <> Some (Some (context_index pad_on_right))) ->
  overflow_to_sample_mapping enc !! i = Some k ->
  py_get answers k = Ok ans ->
  answer_start ans <> [] ->
  (forall st, exists e,
     label_feature cls_token_id pad_on_right answers enc i offsets st =
     Raise e) /\
  (exists e,
     label_features cls_token_id pad_on_right answers enc = Raise e).
Proof.
  intros Hi Hsids Hnone Hk Hans Hgold.
  assert (Hstep : forall st, exists e,
    label_feature cls_token_id pad_on_right answers enc i offsets st =
    Raise e).
  { intros st.
    destruct (returns_cases _
      (label_feature_returns cls_token_id pad_on_right answers enc i
         offsets st)) as [[st' H]|He]; [exfalso|exact He].
    unfold label_feature in H.
    bind_inv H as ids Eids. bind_inv H as c Ecls.
    bind_inv H as sids' Esids. bind_inv H as k' Ek.
    bind_inv H as ans' Eans.
    apply py_get_Ok_lookup in Esids, Ek.
    rewrite Hsids in Esids. injection Esids as <-.
    rewrite Hk in Ek. injection Ek as <-.
    rewrite Hans in Eans. injection Eans as <-.
    destruct (Z.eqb_spec (len (answer_start ans)) 0) as [H0|_].
    { apply Hgold. destruct (answer_start ans); [reflexivity|].
      unfold len in H0. simpl in H0. lia. }
    bind_inv H as sc Esc. bind_inv H as t Et. bind_inv H as ts Ets.
    apply while_Ok_cond, not_context_false, py_get_Ok_elem in Ets as [j Hj].
    exact (Hnone j Hj). }
  split; [exact Hstep|].
  unfold label_features.
  apply (for_enumerate_raises _
           (label_feature_returns cls_token_id pad_on_right answers enc)
           _ 0%nat i offsets Hi).
  exact Hstep.
Qed.

Lemma no_context_token_raises_witness :
  (forall st, exists e,
     label_feature 101 true [gold 2 2] sample_encoding_no_context 0
       [(0, 0); (0, 4); (0, 0); (0, 5); (6, 8); (0, 0)] st = Raise e) /\
  (exists e,
     label_features 101 true [gold 2 2] sample_encoding_no_context =
     Raise e).
Proof.
  apply (no_context_token_raises 101 true [gold 2 2]
           sample_encoding_no_context 0%nat
           [(0, 0); (0, 4); (0, 0); (0, 5); (6, 8); (0, 0)]
           [None; Some 0; None; Some 0; Some 0; None] 0 (gold 2 2));
    try reflexivity.
  - intros [|[|[|[|[|[|j]]]]]]; simpl; discriminate.
  - discriminate.
Defined.

(** ** The label columns *)

(** C10. Whichever branch is taken, the loop body appends exactly one
    start label and one end label, so the two columns returned by
    [prepare_train_features] have one entry per feature. *)
Theorem one_label_pair_per_feature tokenizer cls_token_id pad_on_right
    max_seq_length doc_stride pad_to_max_length examples enc labels :
  prepare_train_features tokenizer cls_token_id pad_on_right max_seq_length
    doc_stride pad_to_max_length examples = Ok (enc, labels) ->
  (forall i offsets st st',
     label_feature cls_token_id pad_on_right (map ex_answers examples) enc
       i offsets st = Ok st' ->
     length (start_positions st') = S (length (start_positions st)) /\
     length (end_positions st') = S (length (end_positions st))) /\
  length (start_positions labels) = length (offset_mapping enc) /\
  length (end_positions labels) = length (offset_mapping enc).
Proof.
  unfold prepare_train_features. intros H. bind_inv H.
  injection H as <- <-. split.
  - intros i offsets st st' Hst.
    apply label_feature_appends in Hst as (s & e & ->). simpl.
    rewrite !length_app. simpl. lia.
  - unfold label_features in E.
    apply label_loop_lengths in E. simpl in E. exact E.
Qed.

Lemma one_label_pair_per_feature_witness :
  length (start_positions
            {| start_positions := [0; 0; 0; 0];
               end_positions := [0; 0; 0; 0] |}) = 4%nat /\
  length (end_positions
            {| start_positions := [0; 0; 0; 0];
               end_positions := [0; 0; 0; 0] |}) = 4%nat.
Proof.
  apply (one_label_pair_per_feature sample_tokenizer 101 true 384 128 true
           [sample_example "a" 1; sample_example "b" 3]
           (tokenize sample_tokenizer true 384 128 true
              [sample_example "a" 1; sample_example "b" 3])
           {| start_positions := [0; 0; 0; 0];
              end_positions := [0; 0; 0; 0] |}).
  reflexivity.
Defined.

(** ** Reading the span back *)

Lemma starts_before_at (offsets : list offset) sc (j : nat) (o : offset) :
  offsets !! j = Some o ->
  starts_before offsets sc (Z.of_nat j) = Ok (fst o <=? sc).
Proof.
  intros H. unfold starts_before.
  pose proof (lookup_lt_Some _ _ _ H) as Hlt.
  destruct (Z.ltb_spec (Z.of_nat j) (len offsets)) as [_|Hge];
    [|unfold len in Hge; lia].
  now rewrite (py_get_lookup _ _ _ H).
Qed.

Lemma starts_before_end (offsets : list offset) sc :
  starts_before offsets sc (len offsets) = Ok false.
Proof. unfold starts_before. now rewrite Z.ltb_irrefl. Qed.

Lemma ends_after_at (offsets : list offset) ec (j : nat) (o : offset) :
  offsets !! j = Some o ->
  ends_after offsets ec (Z.of_nat j) = Ok (snd o >=? ec).
Proof. intros H. unfold ends_after. now rewrite (py_get_lookup _ _ _ H). Qed.

(** C1, as the code has it.  When the gold span starts where a context
    token [a] starts and ends where a context token [b] ends, the offsets
    of the context tokens increase strictly, the start token is not the
    last context token unless that one ends the feature, and the position
    before [b] ends before the answer does, then the labels are [(a, b)]
    and the span read back from them through the offsets is the gold
    span. *)
Theorem aligned_answer_round_trip cls_token_id pad_on_right answers enc
    i (offsets : list offset) ids sids k ans sc t rest_start rest_text
    ts te a b (oa ob : offset) c :
  input_ids enc !! i = Some ids ->
  sequence_ids enc !! i = Some sids ->
  overflow_to_sample_mapping enc !! i = Some k ->
  py_get answers k = Ok ans ->
  answer_start ans = sc :: rest_start ->
  text ans = t :: rest_text ->
  length ids = length sids ->
  first_context pad_on_right sids ts ->
  last_context pad_on_right sids te ->
  py_list_index ids cls_token_id = Ok c ->
  (te < length offsets)%nat ->
  (forall j j' (o o' : offset),
     (ts <= j < j')%nat -> (j' <= te)%nat ->
     offsets !! j = Some o -> offsets !! j' = Some o' ->
     fst o < fst o' /\ snd o < snd o') ->
  (ts <= a <= te)%nat ->
  (ts <= b <= te)%nat ->
  offsets !! a = Some oa -> fst oa = sc ->
  offsets !! b = Some ob -> snd ob = sc + len t ->
  ((a < te)%nat \/ S te = length offsets) ->
  ((ts < b)%nat \/
   exists o : offset,
     py_get offsets (Z.of_nat ts - 1) = Ok o /\ snd o < sc + len t) ->
  (forall st,
     label_feature cls_token_id pad_on_right answers enc i offsets st =
     Ok (append_end (append_start st (Z.of_nat a)) (Z.of_nat b))) /\
  char_span offsets (Z.of_nat a) (Z.of_nat b) = Some (sc, sc + len t) /\
  (forall labels,
     offset_mapping enc !! i = Some offsets ->
     label_features cls_token_id pad_on_right answers enc = Ok labels ->
     start_positions labels !! i = Some (Z.of_nat a) /\
     end_positions labels !! i = Some (Z.of_nat b)).
Proof.
  intros Hids Hsids Hk Hans Hstart Htext Hlen Hfirst Hlast Hcls Hte Hmono
    Ha Hb Hoa Hsc Hob Hec Hstop_up Hstop_down.
  pose proof (lookup_lt_Some _ _ _ (proj1 Hlast)) as Hte_sids.
  assert (Hstarts : forall j (o : offset),
            (ts <= j <= a)%nat -> offsets !! j = Some o -> fst o <= sc).
  { intros j o Hj Ho. destruct (decide (j = a)) as [->|Hne].
    - rewrite Hoa in Ho. injection Ho as <-. lia.
    - destruct (Hmono j a o oa) as [H _]; auto; lia. }
  assert (Hends : forall j (o : offset),
            (b <= j <= te)%nat -> offsets !! j = Some o -> sc + len t <= snd o).
  { intros j o Hj Ho. destruct (decide (j = b)) as [->|Hne].
    - rewrite Hob in Ho. injection Ho as <-. lia.
    - destruct (Hmono b j ob o) as [_ H]; auto; lia. }
  assert (Hstep : forall st,
    label_feature cls_token_id pad_on_right answers enc i offsets st =
    Ok (append_end (append_start st (Z.of_nat a)) (Z.of_nat b))).
  { intros st.
    rewrite (label_feature_with_gold cls_token_id pad_on_right answers enc i
               offsets st ids sids k ans sc t rest_start rest_text ts te c)
      by assumption.
    destruct (lookup_lt_is_Some_2 offsets ts ltac:(lia)) as [ots Hots].
    destruct (lookup_lt_is_Some_2 offsets te ltac:(lia)) as [ote Hote].
    unfold answer_in_span.
    rewrite (py_get_lookup _ _ _ Hots). simpl.
    destruct (Z.leb_spec (fst ots) sc) as [_|Hgt];
      [|specialize (Hstarts ts ots ltac:(lia) Hots); lia].
    rewrite (py_get_lookup _ _ _ Hote). simpl.
    destruct (Z.geb_spec (snd ote) (sc + len t)) as [_|Hlt];
      [|specialize (Hends te ote ltac:(lia) Hote); lia].
    simpl.
    rewrite (while_up_first _ _ (Z.of_nat ts) (Z.of_nat a + 1)).
    - simpl.
      rewrite (while_down_first _ _ (Z.of_nat te) (Z.of_nat b - 1)).
      + simpl. do 3 f_equal; lia.
      + lia.
      + unfold loop_fuel. lia.
      + intros j Hj. rewrite <- (Z2Nat.id j) by lia.
        destruct (lookup_lt_is_Some_2 offsets (Z.to_nat j) ltac:(lia))
          as [o Ho].
        rewrite (ends_after_at _ _ _ _ Ho). f_equal.
        specialize (Hends (Z.to_nat j) o ltac:(lia) Ho).
        destruct (Z.geb_spec (snd o) (sc + len t)); [reflexivity|lia].
      + destruct Hstop_down as [Hlt|(o & Ho & Hlow)].
        * replace (Z.of_nat b - 1) with (Z.of_nat (b - 1)) by lia.
          destruct (lookup_lt_is_Some_2 offsets (b - 1) ltac:(lia))
            as [o Ho].
          rewrite (ends_after_at _ _ _ _ Ho). f_equal.
          destruct (Hmono (b - 1)%nat b o ob) as [_ H]; auto; lia.
        * destruct (decide (ts < b)%nat) as [Hlt|Hge].
          -- replace (Z.of_nat b - 1) with (Z.of_nat (b - 1)) by lia.
             destruct (lookup_lt_is_Some_2 offsets (b - 1) ltac:(lia))
               as [o' Ho'].
             rewrite (ends_after_at _ _ _ _ Ho'). f_equal.
             destruct (Hmono (b - 1)%nat b o' ob) as [_ H]; auto; lia.
          -- replace b with ts by lia. unfold ends_after. rewrite Ho. simpl.
             f_equal.
             destruct (Z.geb_spec (snd o) (sc + len t)); [lia|reflexivity].
    - lia.
    - unfold loop_fuel. lia.
    - intros j Hj. rewrite <- (Z2Nat.id j) by lia.
      destruct (lookup_lt_is_Some_2 offsets (Z.to_nat j) ltac:(lia))
        as [o Ho].
      rewrite (starts_before_at _ _ _ _ Ho). f_equal.
      specialize (Hstarts (Z.to_nat j) o ltac:(lia) Ho).
      destruct (Z.leb_spec (fst o) sc); [reflexivity|lia].
    - destruct (decide (a < te)%nat) as [Hlt|Hge].
      + replace (Z.of_nat a + 1) with (Z.of_nat (S a)) by lia.
        destruct (lookup_lt_is_Some_2 offsets (S a) ltac:(lia)) as [o Ho].
        rewrite (starts_before_at _ _ _ _ Ho). f_equal.
        destruct (Hmono a (S a) oa o) as [H _]; auto; lia.
      + destruct Hstop_up as [Hlt|Hend]; [lia|].
        replace (Z.of_nat a + 1) with (len offsets) by (unfold len; lia).
        apply starts_before_end. }
  split; [exact Hstep|]. split.
  - unfold char_span, offset in *. rewrite !Nat2Z.id, Hoa, Hob.
    replace (0 <=? Z.of_nat a) with true by (symmetry; apply Z.leb_le; lia).
    replace (0 <=? Z.of_nat b) with true by (symmetry; apply Z.leb_le; lia).
    simpl. now rewrite Hsc, Hec.
  - intros labels Hi H. eapply label_features_at; eauto.
Qed.

Lemma aligned_answer_round_trip_witness :
  (forall st,
     label_feature 101 true [gold 0 8] sample_encoding 0
       [(0, 0); (0, 4); (0, 0); (0, 5); (6, 8); (0, 0)] st =
     Ok (append_end (append_start st 3) 4)) /\
  char_span [(0, 0); (0, 4); (0, 0); (0, 5); (6, 8); (0, 0)] 3 4 =
    Some (0, 8) /\
  (forall labels,
     offset_mapping sample_encoding !! 0%nat =
       Some [(0, 0); (0, 4); (0, 0); (0, 5); (6, 8); (0, 0)] ->
     label_features 101 true [gold 0 8] sample_encoding = Ok labels ->
     start_positions labels !! 0%nat = Some 3 /\
     end_positions labels !! 0%nat = Some 4).
Proof.
  apply (aligned_answer_round_trip 101 true [gold 0 8] sample_encoding 0%nat
           [(0, 0); (0, 4); (0, 0); (0, 5); (6, 8); (0, 0)]
           [101; 7; 102; 8; 9; 102]
           [None; Some 0; None; Some 1; Some 1; None] 0 (gold 0 8)
           0 (replicate 8 97%N) [] [] 3%nat 4%nat 3%nat 4%nat
           (0, 5) (6, 8) 0);
    try reflexivity.
  - split; [reflexivity|].
    intros [|[|[|j]]] Hj; simpl; try discriminate; lia.
  - split; [reflexivity|].
    intros [|[|[|[|[|[|j]]]]]] Hj; simpl; try discriminate; lia.
  - simpl. lia.
  - intros j j' o o' Hj Hj' Ho Ho'.
    assert (j = 3%nat) as -> by lia. assert (j' = 4%nat) as -> by lia.
    simpl in Ho, Ho'. injection Ho as <-. injection Ho' as <-. simpl. lia.
  - lia.
  - lia.
  - left. lia.
  - left. lia.
Defined.

(** C1 as stated fails on a gold answer that does not sit on token
    boundaries: the window [0, 8) contains the gold span [2, 4), the labels
    are [(3, 3)], and the span read back from them is [0, 5). *)
Lemma round_trip_fails_inside_a_token :
  answer_in_span [(0, 0); (0, 4); (0, 0); (0, 5); (6, 8); (0, 0)] 3 4 2 4 =
    Ok true /\
  label_features 101 true [gold 2 2] sample_encoding =
    Ok {| start_positions := [3]; end_positions := [3] |} /\
  char_span [(0, 0); (0, 4); (0, 0); (0, 5); (6, 8); (0, 0)] 3 3 =
    Some (0, 5) /\
  (0, 5) <> (2, 2 + len (replicate 2 97%N)).
Proof. repeat split; try reflexivity. discriminate. Qed.

(** The start scan runs past a last context token that is followed by
    tokens of offset [(0, 0)]: for the gold span [6, 8) the labels are
    [(5, 4)], the start label being the closing separator. *)
Lemma start_scan_passes_last_context_token :
  label_features 101 true [gold 6 2] sample_encoding =
    Ok {| start_positions := [5]; end_positions := [4] |} /\
  char_span [(0, 0); (0, 4); (0, 0); (0, 5); (6, 8); (0, 0)] 5 4 =
    Some (0, 8).
Proof. split; reflexivity. Qed.

(** ** Validation features *)

Lemma comprehension_enumerate_spec {A B : Type} (f : nat -> A -> result B)
    (l : list A) : forall k out,
  comprehension_enumerate l k f = Ok out ->
  length out = length l /\
  forall p x, l !! p = Some x ->
    exists y, f (k + p)%nat x = Ok y /\ out !! p = Some y.
Proof.
  induction l as [|a l IH]; intros k out H; simpl in H.
  - injection H as <-. split; [reflexivity|]. intros p x Hp. done.
  - bind_inv H as y Ey. bind_inv H as ys Eys. injection H as <-.
    destruct (IH _ _ Eys) as [Hlen Hall]. split; [simpl; lia|].
    intros [|p] x Hp; simpl in Hp.
    + injection Hp as <-. exists y. rewrite Nat.add_0_r. auto.
    + destruct (Hall p x Hp) as (y' & Hy' & Hout).
      exists y'. replace (k + S p)%nat with (S k + p)%nat by lia. auto.
Qed.

Lemma for_range_inv {St : Type} (Inv : nat -> St -> Prop)
    (body : nat -> St -> result St) :
  (forall i s s', Inv i s -> body i s = Ok s' -> Inv (S i) s') ->
  forall n i s s',
    Inv i s -> for_range n i body s = Ok s' -> Inv (i + n)%nat s'.
Proof.
  intros Hstep. induction n as [|n IH]; intros i s s' Hinv H; simpl in H.
  - injection H as <-. now rewrite Nat.add_0_r.
  - bind_inv H as s1 E1. replace (i + S n)%nat with (S i + n)%nat by lia.
    eapply IH; eauto.
Qed.

Section Validation.

Variable pad_on_right : bool.
Variable examples : list Example.
Variable enc : BatchEncoding.

Lemma blank_feature_inv j st st' :
  blank_inv pad_on_right examples enc j st ->
  blank_feature pad_on_right examples enc j st = Ok st' ->
  blank_inv pad_on_right examples enc (S j) st'.
Proof.
  intros (Hlen & Hrest & Hdone) H. unfold blank_feature in H.
  bind_inv H as sids Esids. bind_inv H as k Ek. bind_inv H as eid Eeid.
  bind_inv H as old Eold. bind_inv H as new Enew. injection H as <-.
  apply py_get_Ok_lookup in Esids, Ek, Eold.
  pose proof (lookup_lt_Some _ _ _ Eold) as Hj.
  destruct (comprehension_enumerate_spec _ _ _ _ Enew) as [Hnew_len Hnew].
  split; [|split]; simpl.
  - rewrite length_app. simpl. lia.
  - intros i Hi. rewrite list_lookup_insert_ne by lia. apply Hrest. lia.
  - intros i Hi sids' offs Hsids' Hoffs.
    destruct (decide (i = j)) as [->|Hne].
    + rewrite Esids in Hsids'. injection Hsids' as <-. split.
      * exists k, eid. split; [assumption|]. split; [assumption|]. simpl.
        rewrite lookup_app_r by lia. now rewrite Hlen, Nat.sub_diag.
      * exists new. simpl. rewrite list_lookup_insert_eq by lia.
        rewrite Hrest, list_lookup_fmap, Hoffs in Eold by lia.
        injection Eold as <-. rewrite length_map in Hnew_len.
        repeat split; auto.
        intros p o Hp.
        destruct (Hnew p (Some o)) as (y & Hy & Hout).
        { now rewrite list_lookup_fmap, Hp. }
        unfold keep_context in Hy. simpl in Hy.
        bind_inv Hy as x Ex. injection Hy as <-.
        apply py_get_Ok_lookup in Ex. eauto.
    + destruct (Hdone i ltac:(lia) sids' offs Hsids' Hoffs)
        as [(k' & eid' & Hk' & Heid' & Hlook) (new' & Hnew' & Hrest')].
      split.
      * exists k', eid'. split; [assumption|]. split; [assumption|]. simpl.
        rewrite lookup_app_l by lia. assumption.
      * exists new'. simpl. rewrite list_lookup_insert_ne by lia. auto.
Qed.

End Validation.

(** C4. [prepare_validation_features] records, for every feature, the id
    of the example it comes from, and rewrites its offsets: the offset of a
    position whose sequence id is the context index is kept, every other
    position becomes [None]. *)
Theorem validation_offsets_blanked tokenizer pad_on_right max_seq_length
    doc_stride pad_to_max_length examples out i
    (sids : list (option Z)) (offs : list offset) :
  prepare_validation_features tokenizer pad_on_right max_seq_length
    doc_stride pad_to_max_length examples = Ok out ->
  (i < length (input_ids (tokenize tokenizer pad_on_right max_seq_length
                            doc_stride pad_to_max_length examples)))%nat ->
  sequence_ids (tokenize tokenizer pad_on_right max_seq_length doc_stride
                  pad_to_max_length examples) !! i = Some sids ->
  offset_mapping (tokenize tokenizer pad_on_right max_seq_length doc_stride
                    pad_to_max_length examples) !! i = Some offs ->
  (exists k eid,
     overflow_to_sample_mapping
       (tokenize tokenizer pad_on_right max_seq_length doc_stride
          pad_to_max_length examples) !! i = Some k /\
     py_get (map ex_id examples) k = Ok eid /\
     example_id out !! i = Some eid) /\
  (exists new : list (option offset),
     val_offset_mapping out !! i = Some new /\
     length new = length offs /\
     forall (p : nat) (o : offset), offs !! p = Some o ->
       exists x, sids !! p = Some x /\
         new !! p =
         Some (if bool_decide (x = Some (context_index pad_on_right))
               then Some o else None)).
Proof.
  unfold prepare_validation_features.
  set (enc := tokenize _ _ _ _ _ _).
  intros H Hi Hsids Hoffs.
  apply (for_range_inv (blank_inv pad_on_right examples enc)) in H.
  - destruct H as (_ & _ & Hdone). exact (Hdone i Hi sids offs Hsids Hoffs).
  - intros. eapply blank_feature_inv; eauto.
  - split; [reflexivity|]. split; [intros; reflexivity|intros j Hj; lia].
Qed.

Lemma validation_offsets_blanked_witness :
  (exists k eid,
     overflow_to_sample_mapping
       (tokenize sample_tokenizer true 384 128 true
          [sample_example "a" 1; sample_example "b" 3]) !! 1%nat = Some k /\
     py_get (map ex_id [sample_example "a" 1; sample_example "b" 3]) k =
       Ok eid /\
     ["a"; "b"; "b"; "b"] !! 1%nat = Some eid) /\
  (exists new : list (option offset),
     [[None; Some (0, 1); None]; [None; Some (0, 1); None];
      [None; Some (0, 1); None]; [None; Some (0, 1); None]] !! 1%nat =
       Some new /\
     length new = 3%nat /\
     forall (p : nat) (o : offset),
       [(0, 0); (0, 1); (0, 0)] !! p = Some o ->
       exists x, [None; Some 1; None] !! p = Some x /\
         new !! p =
         Some (if bool_decide (x = Some (context_index true))
               then Some o else None)).
Proof.
  apply (validation_offsets_blanked sample_tokenizer true 384 128 true
           [sample_example "a" 1; sample_example "b" 3]
           {| val_input_ids :=
                [[101; 5; 102]; [101; 5; 102]; [101; 5; 102]; [101; 5; 102]];
              val_offset_mapping :=
                [[None; Some (0, 1); None]; [None; Some (0, 1); None];
                 [None; Some (0, 1); None]; [None; Some (0, 1); None]];
              example_id := ["a"; "b"; "b"; "b"] |}
           1%nat [None; Some 1; None] [(0, 0); (0, 1); (0, 0)]).
  - reflexivity.
  - simpl. lia.
  - reflexivity.
  - reflexivity.
Defined.

(** ** The final answer *)

(** The best non-null candidate is the first candidate of the pool with a
    text, all candidates ranked before it having none. *)
Lemma best_non_null_first (pool : list Candidate) :
  (exists c, In c pool /\ cand_text c <> []) ->
  exists pre best post,
    pool = pre ++ best :: post /\
    (forall c, In c pre -> cand_text c = []) /\
    cand_text best <> [] /\
    best_non_null pool = Some best.
Proof.
  induction pool as [|c pool IH]; intros (c' & Hin & Htext); [destruct Hin|].
  simpl. case_bool_decide as Hc.
  - destruct Hin as [->|Hin]; [contradiction|].
    destruct IH as (pre & best & post & -> & Hpre & Hbest & Heq); [eauto|].
    exists (c :: pre), best, post. repeat split; auto.
    intros x [<-|Hx]; auto.
  - exists [], c, pool. repeat split; auto. intros x [].
Qed.

(** A pool in which no candidate has a text has no best non-null candidate,
    hence no score to subtract: the rule gives no answer for it. *)
Lemma final_answer_without_non_null (null_score threshold : float)
    (pool : list Candidate) :
  (forall c, In c pool -> cand_text c = []) ->
  final_answer true null_score threshold pool = None.
Proof.
  intros Hall. unfold final_answer.
  replace (best_non_null pool) with (@None Candidate); [reflexivity|].
  induction pool as [|c pool IH]; [reflexivity|]. simpl.
  rewrite bool_decide_true by (apply Hall; left; reflexivity).
  apply IH. intros x Hx. apply Hall. right. exact Hx.
Qed.

(** C6. With negative answers allowed, for a ranked pool that has a
    candidate with a text, the answer extractor takes the first such
    candidate, computes [score_diff = null_score - best_non_null_score],
    and answers the empty string, with the null score recorded, when
    [score_diff > null_score_diff_threshold], and the text of that
    candidate otherwise; the answer is empty exactly in the first case. *)
Theorem null_threshold_decides_final_answer
    (null_score null_score_diff_threshold : float) (pool : list Candidate) :
  (exists c, In c pool /\ cand_text c <> []) ->
  exists pre best post answer,
    pool = pre ++ best :: post /\
    (forall c, In c pre -> cand_text c = []) /\
    cand_text best <> [] /\
    final_answer true null_score null_score_diff_threshold pool =
      Some answer /\
    answer =
      (if PrimFloat.ltb null_score_diff_threshold
            (PrimFloat.sub null_score (cand_score best))
       then {| final_text := []; recorded_null_score := Some null_score |}
       else {| final_text := cand_text best; recorded_null_score := None |})
    /\
    (final_text answer = [] <->
     PrimFloat.ltb null_score_diff_threshold
       (PrimFloat.sub null_score (cand_score best)) = true).
Proof.
  intros Hsome.
  destruct (best_non_null_first pool Hsome)
    as (pre & best & post & Hpool & Hpre & Hbest & Heq).
  exists pre, best, post. unfold final_answer. rewrite Heq.
  destruct (PrimFloat.ltb _ _) eqn:Hgt; eexists;
    (split; [exact Hpool|]); (split; [exact Hpre|]);
    (split; [exact Hbest|]); (split; [reflexivity|]);
    (split; [reflexivity|]); simpl.
  - split; reflexivity.
  - split; [contradiction|discriminate].
Qed.

Lemma null_threshold_decides_final_answer_witness :
  exists pre best post answer,
    [ {| cand_text := []; cand_score := 9%float |};
      {| cand_text := [98%N]; cand_score := 3%float |} ] =
      pre ++ best :: post /\
    (forall c, In c pre -> cand_text c = []) /\
    cand_text best <> [] /\
    final_answer true 5%float 0%float
      [ {| cand_text := []; cand_score := 9%float |};
        {| cand_text := [98%N]; cand_score := 3%float |} ] = Some answer /\
    answer =
      (if PrimFloat.ltb 0%float (PrimFloat.sub 5%float (cand_score best))
       then {| final_text := []; recorded_null_score := Some 5%float |}
       else {| final_text := cand_text best; recorded_null_score := None |})
    /\
    (final_text answer = [] <->
     PrimFloat.ltb 0%float (PrimFloat.sub 5%float (cand_score best)) = true).
Proof.
  apply (null_threshold_decides_final_answer 5%float 0%float
           [ {| cand_text := []; cand_score := 9%float |};
             {| cand_text := [98%N]; cand_score := 3%float |} ]).
  exists {| cand_text := [98%N]; cand_score := 3%float |}.
  split; [right; left; reflexivity|discriminate].
Defined.

(** The rule on concrete scores: a null score 5 against a best score 3 and
    a threshold 0 gives "no answer"; against a threshold 2, or a best score
    7, it gives the candidate's text. *)
Lemma final_answer_on_scores :
  final_answer true 5%float 0%float
    [ {| cand_text := []; cand_score := 9%float |};
      {| cand_text := [98%N]; cand_score := 3%float |} ] =
    Some {| final_text := []; recorded_null_score := Some 5%float |} /\
  final_answer true 5%float 2%float
    [ {| cand_text := [98%N]; cand_score := 3%float |} ] =
    Some {| final_text := [98%N]; recorded_null_score := None |} /\
  final_answer true 5%float 0%float
    [ {| cand_text := [98%N]; cand_score := 7%float |} ] =
    Some {| final_text := [98%N]; recorded_null_score := None |}.
Proof. repeat split; reflexivity. Qed.

(** ** Records for the metric *)

(** C7. Given one predicted answer per example, [post_processing_function]
    returns one prediction record per example, carrying the id and the
    predicted text, without a [no_answer_probability] when negative answers
    are disabled and with one when they are enabled, and one reference
    record [{id, answers}] per example. *)
Theorem metric_records_per_example (Logits : Type) postprocess data_args
    output_dir is_world_process_zero examples features
    (logits : Logits) stage answers :
  postprocess examples features logits
    (version_2_with_negative data_args) (n_best_size data_args)
    (max_answer_length data_args) (null_score_diff_threshold data_args)
    output_dir is_world_process_zero stage = Ok answers ->
  map fst answers = map ex_id examples ->
  exists out,
    post_processing_function Logits postprocess data_args output_dir
      is_world_process_zero examples features logits stage = Ok out /\
    map pred_id (predictions out) = map ex_id examples /\
    map prediction_text (predictions out) = map snd answers /\
    (forall p, In p (predictions out) ->
       (version_2_with_negative data_args = false ->
        no_answer_probability p = None) /\
       (version_2_with_negative data_args = true ->
        no_answer_probability p <> None)) /\
    label_ids out =
      map (fun ex => {| ref_id := ex_id ex; ref_answers := ex_answers ex |})
        examples /\
    length (predictions out) = length examples /\
    length (label_ids out) = length examples.
Proof.
  intros Hpost Hkeys. unfold post_processing_function. rewrite Hpost. simpl.
  eexists. split; [reflexivity|]. simpl.
  assert (Hlen : length answers = length examples).
  { rewrite <- (length_map fst answers), Hkeys. apply length_map. }
  destruct (version_2_with_negative data_args); simpl;
    (split; [rewrite map_map; exact Hkeys|]);
    (split; [rewrite map_map; reflexivity|]);
    (split;
       [intros p Hp; apply in_map_iff in Hp as (kv & <- & _); simpl;
        split; intros; try discriminate; reflexivity|]);
    (split; [reflexivity|]);
    rewrite !length_map; auto.
Qed.

Lemma metric_records_per_example_witness :
  exists out,
    post_processing_function unit sample_postprocess (sample_args None false)
      "out" true [sample_example "a" 1; sample_example "b" 3] [] tt "eval" =
      Ok out /\
    map pred_id (predictions out) = ["a"; "b"] /\
    map prediction_text (predictions out) = [[]; []] /\
    (forall p, In p (predictions out) ->
       (false = false -> no_answer_probability p = None) /\
       (false = true -> no_answer_probability p <> None)) /\
    label_ids out =
      [ {| ref_id := "a"; ref_answers := no_gold |};
        {| ref_id := "b"; ref_answers := no_gold |} ] /\
    length (predictions out) = 2%nat /\
    length (label_ids out) = 2%nat.
Proof.
  apply (metric_records_per_example unit sample_postprocess
           (sample_args None false) "out" true
           [sample_example "a" 1; sample_example "b" 3] [] tt "eval"
           [("a", []); ("b", [])]);
    reflexivity.
Defined.

(** C8. With [version_2_with_negative] set, every prediction record has
    [no_answer_probability] equal to the constant [0.0], whatever the
    answer extractor returned. *)
Theorem no_answer_probability_is_zero (Logits : Type) postprocess data_args
    output_dir is_world_process_zero examples features
    (logits : Logits) stage out :
  version_2_with_negative data_args = true ->
  post_processing_function Logits postprocess data_args output_dir
    is_world_process_zero examples features logits stage = Ok out ->
  forall p, In p (predictions out) ->
    no_answer_probability p = Some 0%float.
Proof.
  intros Hv2 H p Hp. unfold post_processing_function in H.
  bind_inv H as answers Eanswers. injection H as <-.
  rewrite Hv2 in Hp. simpl in Hp.
  apply in_map_iff in Hp as (kv & <- & _). reflexivity.
Qed.

Lemma no_answer_probability_is_zero_witness :
  post_processing_function unit sample_postprocess (sample_args None true)
    "out" true [sample_example "a" 1] [] tt "eval" =
  Ok {| predictions :=
          [ {| pred_id := "a"; prediction_text := [];
               no_answer_probability := Some 0%float |} ];
        label_ids := [ {| ref_id := "a"; ref_answers := no_gold |} ] |} /\
  no_answer_probability
    {| pred_id := "a"; prediction_text := [];
       no_answer_probability := Some 0%float |} = Some 0%float.
Proof.
  split; [reflexivity|].
  apply (no_answer_probability_is_zero unit sample_postprocess
           (sample_args None true) "out" true [sample_example "a" 1] [] tt
           "eval"
           {| predictions :=
                [ {| pred_id := "a"; prediction_text := [];
                     no_answer_probability := Some 0%float |} ];
              label_ids :=
                [ {| ref_id := "a"; ref_answers := no_gold |} ] |});
    [reflexivity|reflexivity|left; reflexivity].
Defined.

(** ** The sample limits *)

Lemma select_if_limited_Some {A : Type} (n : Z) (ds out : list A) :
  select_if_limited (Some n) ds = Ok out ->
  (ds = [] \/ n <= len ds) /\ out = take (Z.to_nat n) ds.
Proof.
  unfold select_if_limited, Dataset_select_range.
  destruct ds as [|x ds].
  - intros [= <-]. split; [auto|]. now rewrite take_nil.
  - destruct (Z.leb_spec n (len (x :: ds))); [|discriminate].
    intros [= <-]. auto.
Qed.



(** ** The preprocessing paths return *)

Lemma comprehension_enumerate_returns {A B : Type} (f : nat -> A -> result B) :
  (forall k x, returns (f k x)) ->
  forall l k, returns (comprehension_enumerate l k f).
Proof.
  intros Hf. induction l as [|x l IH]; intros k; simpl; auto with py.
  apply bind_returns; auto. intros y _.
  apply bind_returns; auto with py.
Qed.

Lemma for_range_returns {St : Type} (body : nat -> St -> result St) :
  (forall i s, returns (body i s)) ->
  forall n i s, returns (for_range n i body s).
Proof.
  intros Hb. induction n as [|n IH]; intros i s; simpl; auto with py.
  apply bind_returns; auto.
Qed.

Lemma prepare_validation_features_returns tokenizer pad_on_right
    max_seq_length doc_stride pad_to_max_length examples :
  returns (prepare_validation_features tokenizer pad_on_right max_seq_length
             doc_stride pad_to_max_length examples).
Proof.
  apply for_range_returns. intros i st. unfold blank_feature.
  do 4 (apply bind_returns; [apply py_get_returns|intros ? _]).
  apply bind_returns; auto with py.
  apply comprehension_enumerate_returns. intros k o. unfold keep_context.
  apply bind_returns; auto with py.
Qed.

Lemma prepare_train_features_returns tokenizer cls_token_id pad_on_right
    max_seq_length doc_stride pad_to_max_length examples :
  returns (prepare_train_features tokenizer cls_token_id pad_on_right
             max_seq_length doc_stride pad_to_max_length examples).
Proof.
  unfold prepare_train_features.
  apply bind_returns; auto with py. apply label_features_returns.
Qed.

Lemma train_rows_returns ids : forall starts ends,
  returns (train_rows ids starts ends).
Proof.
  induction ids as [|i ids IH]; intros [|s starts] [|e ends]; simpl;
    auto with py.
  apply bind_returns; auto with py.
Qed.

Lemma validation_rows_returns ids : forall offs eids,
  returns (validation_rows ids offs eids).
Proof.
  induction ids as [|i ids IH]; intros [|o offs] [|e eids]; simpl;
    auto with py.
  apply bind_returns; auto with py.
Qed.

(** The fuel of [Dataset_map], one unit per row, covers all batches. *)
Lemma map_batches_returns {A B : Type} (f : list A -> result (list B)) :
  (forall batch, returns (f batch)) ->
  forall fuel ds, (length ds <= fuel)%nat -> returns (map_batches fuel f ds).
Proof.
  intros Hf. induction fuel as [|fuel IH]; intros [|x ds] Hlen;
    try (simpl; auto with py; fail).
  - simpl in Hlen. lia.
  - cbn [map_batches].
    apply bind_returns; auto. intros out _.
    apply bind_returns; auto with py.
    apply IH. rewrite length_drop. unfold batch_size.
    cbn [length] in Hlen |- *. lia.
Qed.

Lemma Dataset_map_returns {A B : Type} (f : list A -> result (list B)) ds :
  (forall batch, returns (f batch)) -> returns (Dataset_map f ds).
Proof. intros Hf. apply map_batches_returns; auto. Qed.

Lemma select_if_limited_returns {A : Type} limit (ds : list A) :
  returns (select_if_limited limit ds).
Proof.
  destruct limit as [n|]; simpl; auto with py.
  unfold Dataset_select_range. destruct ds; auto with py.
  destruct (n <=? _); auto with py.
Qed.

Lemma preprocess_train_dataset_returns tokenizer cls_token_id data_args
    pad_on_right datasets :
  returns (preprocess_train_dataset tokenizer cls_token_id data_args
             pad_on_right datasets).
Proof.
  unfold preprocess_train_dataset.
  destruct (train datasets) as [ds|]; auto with py.
  apply bind_returns; [apply select_if_limited_returns|]. intros ds' _.
  apply bind_returns; [|intros; apply select_if_limited_returns].
  apply Dataset_map_returns. intros batch. unfold train_batch.
  apply bind_returns; [apply prepare_train_features_returns|].
  intros cols _. apply train_rows_returns.
Qed.

Lemma validation_batch_returns tokenizer data_args pad_on_right batch :
  returns (validation_batch tokenizer data_args pad_on_right batch).
Proof.
  unfold validation_batch.
  apply bind_returns; [apply prepare_validation_features_returns|].
  intros cols _. apply validation_rows_returns.
Qed.

Lemma preprocess_eval_dataset_returns tokenizer data_args pad_on_right
    datasets :
  returns (preprocess_eval_dataset tokenizer data_args pad_on_right datasets).
Proof.
  unfold preprocess_eval_dataset.
  destruct (validation datasets) as [ds|]; auto with py.
  apply bind_returns; [apply select_if_limited_returns|]. intros ds' _.
  apply bind_returns;
    [apply Dataset_map_returns, validation_batch_returns|].
  intros fs _.
  apply bind_returns; [apply select_if_limited_returns|auto with py].
Qed.

Lemma preprocess_predict_dataset_returns tokenizer data_args pad_on_right
    datasets :
  returns (preprocess_predict_dataset tokenizer data_args pad_on_right
             datasets).
Proof.
  unfold preprocess_predict_dataset.
  destruct (test datasets) as [ds|]; auto with py.
  apply bind_returns; [apply select_if_limited_returns|]. intros ds' _.
  apply bind_returns;
    [apply Dataset_map_returns, validation_batch_returns|].
  intros fs _.
  apply bind_returns; [apply select_if_limited_returns|auto with py].
Qed.

(** * Further properties of the label aligner *)

(** ** What a finished scan has seen *)

Lemma while_up_inv (cond : Z -> result bool) (fuel : nat) : forall k k',
  while fuel cond Z.succ k = Ok k' ->
  k <= k' /\ (forall j, k <= j < k' -> cond j = Ok true) /\
  cond k' = Ok false.
Proof.
  induction fuel as [|fuel IH]; intros k k' H; [discriminate|].
  rewrite while_step in H. bind_inv H as b Eb. destruct b.
  - apply IH in H as (Hle & Hall & Hstop). split; [lia|]. split; [|exact Hstop].
    intros j Hj. destruct (Z.eq_dec j k) as [->|Hne]; [exact Eb|].
    apply Hall. lia.
  - injection H as <-. split; [lia|]. split; [intros j Hj; lia|exact Eb].
Qed.

Lemma while_down_inv (cond : Z -> result bool) (fuel : nat) : forall k k',
  while fuel cond Z.pred k = Ok k' ->
  k' <= k /\ (forall j, k' < j <= k -> cond j = Ok true) /\
  cond k' = Ok false.
Proof.
  induction fuel as [|fuel IH]; intros k k' H; [discriminate|].
  rewrite while_step in H. bind_inv H as b Eb. destruct b.
  - apply IH in H as (Hle & Hall & Hstop). split; [lia|]. split; [|exact Hstop].
    intros j Hj. destruct (Z.eq_dec j k) as [->|Hne]; [exact Eb|].
    apply Hall. lia.
  - injection H as <-. split; [lia|]. split; [intros j Hj; lia|exact Eb].
Qed.

(** A downward scan raises what its test raises at the first position
    where the test does not hold. *)
Lemma while_down_raise (cond : Z -> result bool) (e : exn) (fuel : nat) :
  forall k t,
    t <= k -> k - t < Z.of_nat fuel ->
    (forall j, t < j <= k -> cond j = Ok true) ->
    cond t = Raise e ->
    while fuel cond Z.pred k = Raise e.
Proof.
  induction fuel as [|fuel IH]; intros k t Hk Hf Htrue Hraise; [lia|].
  rewrite while_step.
  destruct (Z.eq_dec k t) as [->|Hne].
  - now rewrite Hraise.
  - rewrite Htrue by lia. simpl. apply (IH _ t); try lia; auto.
    intros j Hj. apply Htrue. lia.
Qed.

Lemma starts_before_true_inv (offsets : list offset) sc k :
  starts_before offsets sc k = Ok true ->
  k < len offsets /\
  exists o : offset, py_get offsets k = Ok o /\ fst o <= sc.
Proof.
  intros H. split; [now apply starts_before_true_range in H|].
  unfold starts_before in H. destruct (k <? len offsets); [|discriminate].
  bind_inv H as o Eo. injection H as H. exists o. split; [assumption|lia].
Qed.

Lemma ends_after_true_inv (offsets : list offset) ec k :
  ends_after offsets ec k = Ok true ->
  exists o : offset, py_get offsets k = Ok o /\ ec <= snd o.
Proof.
  unfold ends_after. intros H. bind_inv H as o Eo. injection H as H.
  exists o. split; [assumption|lia].
Qed.

Lemma py_get_nonneg_Ok {A : Type} (l : list A) (k : Z) :
  0 <= k < len l -> exists x, py_get l k = Ok x.
Proof.
  intros Hk. rewrite <- (Z2Nat.id k) by lia.
  destruct (lookup_lt_is_Some_2 l (Z.to_nat k)) as [x Hx];
    [unfold len in Hk; lia|].
  exists x. now apply py_get_lookup.
Qed.

Lemma py_get_in_range_Ok {A : Type} (l : list A) (k : Z) :
  - len l <= k < len l -> exists x, py_get l k = Ok x.
Proof.
  intros Hk. unfold py_get.
  set (j := if k <? 0 then k + len l else k).
  assert (Hj : 0 <= j < len l).
  { unfold j. destruct (Z.ltb_spec k 0); lia. }
  clearbody j.
  destruct (Z.leb_spec 0 j); [|lia]. destruct (Z.ltb_spec j (len l)); [|lia].
  simpl. destruct (lookup_lt_is_Some_2 l (Z.to_nat j)) as [x ->];
    [unfold len in Hj; lia|]. eauto.
Qed.

Lemma py_get_below_range {A : Type} (l : list A) :
  py_get l (- len l - 1) = Raise IndexError.
Proof.
  unfold py_get. pose proof (len_nonneg l).
  destruct (Z.ltb_spec (- len l - 1) 0); [|lia].
  destruct (Z.leb_spec 0 (- len l - 1 + len l)); [lia|]. reflexivity.
Qed.

Lemma while_up_stops (cond : Z -> result bool) (fuel : nat) : forall k t,
  k <= t -> t - k < Z.of_nat fuel ->
  (forall j, k <= j < t -> exists b, cond j = Ok b) ->
  cond t = Ok false ->
  exists k', while fuel cond Z.succ k = Ok k' /\ k <= k' <= t.
Proof.
  induction fuel as [|fuel IH]; intros k t Hk Hf Hok Hstop; [lia|].
  rewrite while_step.
  destruct (Z.eq_dec k t) as [->|Hne].
  - rewrite Hstop. simpl. exists t. split; [reflexivity|lia].
  - destruct (Hok k ltac:(lia)) as [[|] ->]; simpl.
    + destruct (IH (Z.succ k) t) as (k' & Hk' & Hr); try lia; auto.
      { intros j Hj. apply Hok. lia. }
      exists k'. split; [assumption|lia].
    + exists k. split; [reflexivity|lia].
Qed.

Lemma while_down_stops (cond : Z -> result bool) (fuel : nat) : forall k t,
  t <= k -> k - t < Z.of_nat fuel ->
  (forall j, t < j <= k -> exists b, cond j = Ok b) ->
  cond t = Ok false ->
  exists k', while fuel cond Z.pred k = Ok k' /\ t <= k' <= k.
Proof.
  induction fuel as [|fuel IH]; intros k t Hk Hf Hok Hstop; [lia|].
  rewrite while_step.
  destruct (Z.eq_dec k t) as [->|Hne].
  - rewrite Hstop. simpl. exists t. split; [reflexivity|lia].
  - destruct (Hok k ltac:(lia)) as [[|] ->]; simpl.
    + destruct (IH (Z.pred k) t) as (k' & Hk' & Hr); try lia; auto.
      { intros j Hj. apply Hok. lia. }
      exists k'. split; [assumption|lia].
    + exists k. split; [reflexivity|lia].
Qed.

Section InSpan.

Variable cls_token_id : Z.
Variable pad_on_right : bool.
Variable answers : list Answers.
Variable enc : BatchEncoding.

(** [label_feature] on a located feature whose window contains the gold
    span: the two scans over the offsets and the labels they give. *)
Lemma label_feature_in_span i (offsets : list offset) ids sids sc t ts te c st :
  gold_feature cls_token_id pad_on_right answers enc i ids sids sc t ts te c ->
  answer_in_span offsets (Z.of_nat ts) (Z.of_nat te) sc (sc + len t) =
    Ok true ->
  label_feature cls_token_id pad_on_right answers enc i offsets st =
  bind (while (loop_fuel ids sids offsets) (starts_before offsets sc)
          Z.succ (Z.of_nat ts))
    (fun tsi =>
       bind (while (loop_fuel ids sids offsets)
               (ends_after offsets (sc + len t)) Z.pred (Z.of_nat te))
         (fun tei => Ok (append_end (append_start st (tsi - 1)) (tei + 1)))).
Proof.
  intros (Hids & Hsids & (k & ans & rs & rt & Hk & Hans & Hstart & Htext)
          & Hlen & Hfirst & Hlast & Hcls) Hin.
  rewrite (label_feature_with_gold cls_token_id pad_on_right answers enc i
             offsets st ids sids k ans sc t rs rt ts te c) by assumption.
  rewrite Hin. reflexivity.
Qed.

(** The start scan of a located feature never raises. *)
Lemma start_scan_stops (offsets : list offset) sc (fuel : nat) (ts : nat) :
  Z.of_nat ts <= len offsets ->
  len offsets - Z.of_nat ts < Z.of_nat fuel ->
  exists tsi,
    while fuel (starts_before offsets sc) Z.succ (Z.of_nat ts) = Ok tsi /\
    Z.of_nat ts <= tsi <= len offsets.
Proof.
  intros Hts Hfuel. apply while_up_stops; auto.
  - intros j Hj. unfold starts_before.
    destruct (Z.ltb_spec j (len offsets)); [|lia].
    destruct (py_get_nonneg_Ok offsets j ltac:(lia)) as [o ->]. simpl. eauto.
  - apply starts_before_end.
Qed.

End InSpan.

(** ** Labels of a window that contains the answer *)

(** X1. Whenever the window of a feature contains the gold span and labels
    are produced, the start label is a position from the first context
    token on whose token starts at or before [start_char], and the end
    label is a position up to the last context token whose token ends at or
    after [end_char]: read back through the offsets, the labels cover the
    gold span. *)
Theorem in_span_labels_cover_answer cls_token_id pad_on_right answers enc i
    (offsets : list offset) ids sids sc t ts te c st st' :
  gold_feature cls_token_id pad_on_right answers enc i ids sids sc t ts te c ->
  answer_in_span offsets (Z.of_nat ts) (Z.of_nat te) sc (sc + len t) =
    Ok true ->
  label_feature cls_token_id pad_on_right answers enc i offsets st = Ok st' ->
  exists s e (os oe : offset),
    st' = append_end (append_start st s) e /\
    Z.of_nat ts <= s < len offsets /\ e <= Z.of_nat te /\
    py_get offsets s = Ok os /\ fst os <= sc /\
    py_get offsets e = Ok oe /\ sc + len t <= snd oe.
Proof.
  intros Hgold Hin H.
  rewrite (label_feature_in_span _ _ _ _ _ _ _ _ _ _ _ _ _ _ Hgold Hin) in H.
  bind_inv H as tsi Etsi. bind_inv H as tei Etei. injection H as <-.
  apply answer_in_span_true in Hin as (o & o' & Ho & Ho' & Hle & Hge).
  apply while_up_inv in Etsi as (Hup & Hup_all & Hup_stop).
  apply while_down_inv in Etei as (Hdown & Hdown_all & Hdown_stop).
  assert (Hts_lt : Z.of_nat ts < len offsets).
  { apply py_get_Ok_inv in Ho as [? _]. lia. }
  assert (Hts_true : starts_before offsets sc (Z.of_nat ts) = Ok true).
  { unfold starts_before.
    destruct (Z.ltb_spec (Z.of_nat ts) (len offsets)); [|lia].
    rewrite Ho. simpl. f_equal. lia. }
  assert (Hte_true :
            ends_after offsets (sc + len t) (Z.of_nat te) = Ok true).
  { unfold ends_after. rewrite Ho'. simpl. f_equal. lia. }
  assert (Hgt : Z.of_nat ts < tsi).
  { destruct (Z.eq_dec tsi (Z.of_nat ts)) as [->|]; [congruence|lia]. }
  assert (Hlt : tei < Z.of_nat te).
  { destruct (Z.eq_dec tei (Z.of_nat te)) as [->|]; [congruence|lia]. }
  destruct (starts_before_true_inv _ _ _ (Hup_all (tsi - 1) ltac:(lia)))
    as (Hs_lt & os & Hos & Hos_le).
  destruct (ends_after_true_inv _ _ _ (Hdown_all (tei + 1) ltac:(lia)))
    as (oe & Hoe & Hoe_ge).
  exists (tsi - 1), (tei + 1), os, oe. repeat split; auto; lia.
Qed.

Lemma in_span_labels_cover_answer_witness :
  exists s e (os oe : offset),
    {| start_positions := [3]; end_positions := [3] |} =
      append_end
        (append_start {| start_positions := []; end_positions := [] |} s) e /\
    Z.of_nat 3 <= s < len [(0, 0); (0, 4); (0, 0); (0, 5); (6, 8); (0, 0)] /\
    e <= Z.of_nat 4 /\
    py_get [(0, 0); (0, 4); (0, 0); (0, 5); (6, 8); (0, 0)] s = Ok os /\
    fst os <= 2 /\
    py_get [(0, 0); (0, 4); (0, 0); (0, 5); (6, 8); (0, 0)] e = Ok oe /\
    2 + len (replicate 2 97%N) <= snd oe.
Proof.
  apply (in_span_labels_cover_answer 101 true [gold 2 2] sample_encoding
           0%nat [(0, 0); (0, 4); (0, 0); (0, 5); (6, 8); (0, 0)]
           [101; 7; 102; 8; 9; 102]
           [None; Some 0; None; Some 1; Some 1; None]
           2 (replicate 2 97%N) 3%nat 4%nat 0
           {| start_positions := []; end_positions := [] |}
           {| start_positions := [3]; end_positions := [3] |});
    try reflexivity.
  repeat split; try reflexivity.
  - exists 0, (gold 2 2), [], []. repeat split; reflexivity.
  - intros [|[|[|j]]] Hj; simpl; try discriminate; lia.
  - intros [|[|[|[|[|[|j]]]]]] Hj; simpl; try discriminate; lia.
Defined.

(** X2. When the window of a feature contains the gold span and some token
    at a position [p] up to the last context token ends before [end_char]
    (the leading CLS token, of offset (0, 0), for an answer that is not
    empty), the labelling of the feature returns labels, and the end label
    lies after [p]. *)
Theorem in_span_labels_returned cls_token_id pad_on_right answers enc i
    (offsets : list offset) ids sids sc t ts te c (p : nat) (op : offset) :
  gold_feature cls_token_id pad_on_right answers enc i ids sids sc t ts te c ->
  answer_in_span offsets (Z.of_nat ts) (Z.of_nat te) sc (sc + len t) =
    Ok true ->
  (p <= te)%nat ->
  offsets !! p = Some op ->
  snd op < sc + len t ->
  forall st, exists s e,
    label_feature cls_token_id pad_on_right answers enc i offsets st =
      Ok (append_end (append_start st s) e) /\
    Z.of_nat p < e.
Proof.
  intros Hgold Hin Hp Hop Hlow st.
  rewrite (label_feature_in_span _ _ _ _ _ _ _ _ _ _ _ _ _ _ Hgold Hin).
  destruct Hgold as (_ & _ & _ & _ & _ & Hlast & _).
  pose proof (lookup_lt_Some _ _ _ (proj1 Hlast)) as Hte_sids.
  apply answer_in_span_true in Hin as (o & o' & Ho & Ho' & _ & Hge).
  apply py_get_Ok_inv in Ho as [Ho _]. apply py_get_Ok_inv in Ho' as [Ho' _].
  destruct (start_scan_stops offsets sc (loop_fuel ids sids offsets) ts)
    as (tsi & -> & _); [lia|unfold loop_fuel, len in *; lia|].
  simpl.
  destruct (while_down_stops (ends_after offsets (sc + len t))
              (loop_fuel ids sids offsets) (Z.of_nat te) (Z.of_nat p))
    as (tei & -> & Htei); [lia|unfold loop_fuel, len in *; lia| | |].
  - intros j Hj. unfold ends_after.
    destruct (py_get_nonneg_Ok offsets j ltac:(lia)) as [x ->]. simpl. eauto.
  - rewrite (ends_after_at _ _ _ _ Hop). f_equal. lia.
  - simpl. exists (tsi - 1), (tei + 1). split; [reflexivity|lia].
Qed.

Lemma in_span_labels_returned_witness :
  exists s e,
    label_feature 101 true [gold 2 2] sample_encoding 0
      [(0, 0); (0, 4); (0, 0); (0, 5); (6, 8); (0, 0)]
      {| start_positions := []; end_positions := [] |} =
      Ok (append_end
            (append_start {| start_positions := []; end_positions := [] |} s)
            e) /\
    Z.of_nat 0 < e.
Proof.
  apply (in_span_labels_returned 101 true [gold 2 2] sample_encoding
           0%nat [(0, 0); (0, 4); (0, 0); (0, 5); (6, 8); (0, 0)]
           [101; 7; 102; 8; 9; 102]
           [None; Some 0; None; Some 1; Some 1; None]
           2 (replicate 2 97%N) 3%nat 4%nat 0 0%nat (0, 0));
    try reflexivity.
  - repeat split; try reflexivity.
    + exists 0, (gold 2 2), [], []. repeat split; reflexivity.
    + intros [|[|[|j]]] Hj; simpl; try discriminate; lia.
    + intros [|[|[|[|[|[|j]]]]]] Hj; simpl; try discriminate; lia.
  - lia.
Defined.

(** X3. When every token from the first context token to the end of the
    feature starts at or before [start_char] (a gold answer that starts in
    the last context token, followed by special or padding tokens of offset
    (0, 0)), the start label is the last position of the feature; when
    tokens follow the last context token, that position is not a context
    token. *)
Theorem start_label_runs_to_feature_end cls_token_id pad_on_right answers
    enc i (offsets : list offset) ids sids sc t ts te c st st' :
  gold_feature cls_token_id pad_on_right answers enc i ids sids sc t ts te c ->
  answer_in_span offsets (Z.of_nat ts) (Z.of_nat te) sc (sc + len t) =
    Ok true ->
  (forall (j : nat) (o : offset),
     (ts <= j)%nat -> offsets !! j = Some o -> fst o <= sc) ->
  label_feature cls_token_id pad_on_right answers enc i offsets st = Ok st' ->
  (exists e, st' = append_end (append_start st (len offsets - 1)) e) /\
  ((te + 1 < length offsets)%nat ->
   sids !! (length offsets - 1)%nat <>
   Some (Some (context_index pad_on_right))).
Proof.
  intros Hgold Hin Hall H.
  rewrite (label_feature_in_span _ _ _ _ _ _ _ _ _ _ _ _ _ _ Hgold Hin) in H.
  destruct Hgold as (_ & _ & _ & _ & _ & Hlast & _).
  bind_inv H as tsi Etsi. bind_inv H as tei Etei. injection H as <-.
  apply while_up_inv in Etsi as (Hup & Hup_all & Hup_stop).
  split.
  - exists (tei + 1). do 2 f_equal. f_equal.
    assert (Hle : tsi <= len offsets).
    { destruct (Z.le_gt_cases tsi (len offsets)) as [|Hgt]; [assumption|].
      specialize (Hup_all (len offsets)).
      rewrite starts_before_end in Hup_all.
      assert (Hr : 0 <= len offsets) by apply len_nonneg.
      assert (Hc : @Ok bool false = Ok true).
      { apply Hup_all. apply answer_in_span_true in Hin
          as (o & _ & Ho & _). apply py_get_Ok_inv in Ho as [? _]. lia. }
      discriminate. }
    destruct (Z.eq_dec tsi (len offsets)) as [->|Hne]; [reflexivity|].
    exfalso. replace tsi with (Z.of_nat (Z.to_nat tsi)) in Hup_stop by lia.
    destruct (lookup_lt_is_Some_2 offsets (Z.to_nat tsi)) as [o Ho];
      [unfold len in *; lia|].
    rewrite (starts_before_at _ _ _ _ Ho) in Hup_stop.
    specialize (Hall (Z.to_nat tsi) o ltac:(lia) Ho).
    injection Hup_stop as Hstop. lia.
  - intros Hafter. apply (proj2 Hlast). lia.
Qed.

Lemma start_label_runs_to_feature_end_witness :
  (exists e,
     {| start_positions := [5]; end_positions := [4] |} =
     append_end
       (append_start {| start_positions := []; end_positions := [] |}
          (len [(0, 0); (0, 4); (0, 0); (0, 5); (6, 8); (0, 0)] - 1)) e) /\
  ((4 + 1 < length [(0, 0); (0, 4); (0, 0); (0, 5); (6, 8); (0, 0)])%nat ->
   [None; Some 0; None; Some 1; Some 1; None] !!
     (length [(0, 0); (0, 4); (0, 0); (0, 5); (6, 8); (0, 0)] - 1)%nat <>
   Some (Some (context_index true))).
Proof.
  apply (start_label_runs_to_feature_end 101 true [gold 6 2] sample_encoding
           0%nat [(0, 0); (0, 4); (0, 0); (0, 5); (6, 8); (0, 0)]
           [101; 7; 102; 8; 9; 102]
           [None; Some 0; None; Some 1; Some 1; None]
           6 (replicate 2 97%N) 3%nat 4%nat 0
           {| start_positions := []; end_positions := [] |}
           {| start_positions := [5]; end_positions := [4] |});
    try reflexivity.
  - repeat split; try reflexivity.
    + exists 0, (gold 6 2), [], []. repeat split; reflexivity.
    + intros [|[|[|j]]] Hj; simpl; try discriminate; lia.
    + intros [|[|[|[|[|[|j]]]]]] Hj; simpl; try discriminate; lia.
  - intros [|[|[|[|[|[|j]]]]]] o Hj Ho; simpl in Ho; try lia;
      try discriminate; injection Ho as <-; simpl; lia.
Defined.

(** X4. When the window of a feature contains the gold span and no token of
    the feature ends before [end_char] (an empty gold answer text at
    character 0, for instance), the end scan walks down through the
    negative indices and the labelling raises [IndexError]. *)
Theorem end_scan_raises_without_lower_stop cls_token_id pad_on_right answers
    enc i (offsets : list offset) ids sids sc t ts te c :
  gold_feature cls_token_id pad_on_right answers enc i ids sids sc t ts te c ->
  answer_in_span offsets (Z.of_nat ts) (Z.of_nat te) sc (sc + len t) =
    Ok true ->
  (forall (j : nat) (o : offset),
     offsets !! j = Some o -> sc + len t <= snd o) ->
  forall st,
    label_feature cls_token_id pad_on_right answers enc i offsets st =
    Raise IndexError.
Proof.
  intros Hgold Hin Hall st.
  rewrite (label_feature_in_span _ _ _ _ _ _ _ _ _ _ _ _ _ _ Hgold Hin).
  destruct Hgold as (_ & _ & _ & _ & _ & Hlast & _).
  pose proof (lookup_lt_Some _ _ _ (proj1 Hlast)) as Hte_sids.
  apply answer_in_span_true in Hin as (o & o' & Ho & Ho' & _ & Hge).
  apply py_get_Ok_inv in Ho as [Ho _]. apply py_get_Ok_inv in Ho' as [Ho' _].
  destruct (start_scan_stops offsets sc (loop_fuel ids sids offsets) ts)
    as (tsi & -> & _); [lia|unfold loop_fuel, len in *; lia|].
  simpl.
  rewrite (while_down_raise (ends_after offsets (sc + len t)) IndexError
             (loop_fuel ids sids offsets) (Z.of_nat te)
             (- len offsets - 1)).
  - reflexivity.
  - lia.
  - unfold loop_fuel, len in *. lia.
  - intros j Hj. unfold ends_after.
    destruct (py_get_in_range_Ok offsets j ltac:(lia)) as [x Hx].
    rewrite Hx. simpl. f_equal.
    destruct (py_get_Ok_elem _ _ _ Hx) as [n Hn].
    specialize (Hall n x Hn). lia.
  - unfold ends_after. now rewrite py_get_below_range.
Qed.

Lemma end_scan_raises_without_lower_stop_witness :
  label_feature 101 true [gold 0 0] sample_encoding 0
    [(0, 0); (0, 4); (0, 0); (0, 5); (6, 8); (0, 0)]
    {| start_positions := []; end_positions := [] |} = Raise IndexError.
Proof.
  apply (end_scan_raises_without_lower_stop 101 true [gold 0 0]
           sample_encoding 0%nat
           [(0, 0); (0, 4); (0, 0); (0, 5); (6, 8); (0, 0)]
           [101; 7; 102; 8; 9; 102]
           [None; Some 0; None; Some 1; Some 1; None]
           0 (replicate 0 97%N) 3%nat 4%nat 0);
    try reflexivity.
  - repeat split; try reflexivity.
    + exists 0, (gold 0 0), [], []. repeat split; reflexivity.
    + intros [|[|[|j]]] Hj; simpl; try discriminate; lia.
    + intros [|[|[|[|[|[|j]]]]]] Hj; simpl; try discriminate; lia.
  - intros [|[|[|[|[|[|j]]]]]] o Ho; simpl in Ho;
      try discriminate; injection Ho as <-; simpl; unfold len; simpl; lia.
Defined.

(** ** Which answer and which CLS position are used *)

Lemma py_get_0_head {A : Type} (l : list A) :
  py_get l 0 = match head l with Some x => Ok x | None => Raise IndexError end.
Proof. destruct l as [|x l]; [reflexivity|apply py_get_head]. Qed.

Lemma len_eqb_0_head {A : Type} (l : list A) :
  (len l =? 0) = bool_decide (head l = None).
Proof. destruct l; reflexivity. Qed.

(** X5. Only the first gold answer of an example is read: two answer
    columns whose entries for the example of a feature agree on the first
    start and on the first text give the same outcome for that feature,
    whatever other answers they list. *)
Theorem only_first_gold_answer_used cls_token_id pad_on_right
    (answers answers' : list Answers) enc i
    (offsets : list offset) st k (ans ans' : Answers) :
  overflow_to_sample_mapping enc !! i = Some k ->
  py_get answers k = Ok ans ->
  py_get answers' k = Ok ans' ->
  head (answer_start ans) = head (answer_start ans') ->
  head (text ans) = head (text ans') ->
  label_feature cls_token_id pad_on_right answers enc i offsets st =
  label_feature cls_token_id pad_on_right answers' enc i offsets st.
Proof.
  intros Hk Hans Hans' Hstart Htext. unfold label_feature.
  destruct (py_get (input_ids enc) (Z.of_nat i)) as [ids| |];
    simpl; try reflexivity.
  destruct (py_list_index ids cls_token_id) as [c| |]; simpl; try reflexivity.
  destruct (py_get (sequence_ids enc) (Z.of_nat i)) as [sids| |];
    simpl; try reflexivity.
  rewrite (py_get_lookup _ _ _ Hk). simpl. rewrite Hans, Hans'. simpl.
  rewrite !len_eqb_0_head, !py_get_0_head, Hstart, Htext. reflexivity.
Qed.

Lemma only_first_gold_answer_used_witness :
  label_feature 101 true [gold 2 2] sample_encoding 0
    [(0, 0); (0, 4); (0, 0); (0, 5); (6, 8); (0, 0)]
    {| start_positions := []; end_positions := [] |} =
  label_feature 101 true
    [ {| answer_start := [2; 6];
         text := [replicate 2 97%N; replicate 2 98%N] |} ]
    sample_encoding 0
    [(0, 0); (0, 4); (0, 0); (0, 5); (6, 8); (0, 0)]
    {| start_positions := []; end_positions := [] |}.
Proof.
  apply (only_first_gold_answer_used 101 true [gold 2 2]
           [ {| answer_start := [2; 6];
                text := [replicate 2 97%N; replicate 2 98%N] |} ]
           sample_encoding 0%nat
           [(0, 0); (0, 4); (0, 0); (0, 5); (6, 8); (0, 0)]
           {| start_positions := []; end_positions := [] |} 0 (gold 2 2)
           {| answer_start := [2; 6];
              text := [replicate 2 97%N; replicate 2 98%N] |});
    reflexivity.
Defined.

Lemma py_list_index_absent (l : list Z) (x : Z) :
  ~ In x l -> py_list_index l x = Raise ValueError.
Proof.
  induction l as [|y l IH]; simpl; intros Hnot; [reflexivity|].
  destruct (Z.eqb_spec y x) as [->|Hne]; [tauto|].
  rewrite IH by tauto. reflexivity.
Qed.

Lemma py_list_index_first (l : list Z) (x : Z) : forall c : nat,
  l !! c = Some x ->
  (forall j, (j < c)%nat -> l !! j <> Some x) ->
  py_list_index l x = Ok (Z.of_nat c).
Proof.
  induction l as [|y l IH]; intros c Hc Hfirst; [done|].
  simpl. destruct c as [|c]; simpl in Hc.
  - injection Hc as ->. now rewrite Z.eqb_refl.
  - destruct (Z.eqb_spec y x) as [->|Hne].
    + exfalso. apply (Hfirst 0%nat); [lia|reflexivity].
    + rewrite (IH c Hc).
      * simpl. f_equal. lia.
      * intros j Hj. apply (Hfirst (S j)). lia.
Qed.

(** X6. A feature whose token ids do not contain [cls_token_id] makes the
    labelling raise [ValueError], with or without a gold answer. *)
Theorem missing_cls_token_raises cls_token_id pad_on_right answers enc i
    (offsets : list offset) (ids : list Z) :
  input_ids enc !! i = Some ids ->
  ~ In cls_token_id ids ->
  (forall st,
     label_feature cls_token_id pad_on_right answers enc i offsets st =
     Raise ValueError) /\
  (offset_mapping enc !! i = Some offsets ->
   exists e, label_features cls_token_id pad_on_right answers enc = Raise e).
Proof.
  intros Hids Hnot.
  assert (Hstep : forall st,
    label_feature cls_token_id pad_on_right answers enc i offsets st =
    Raise ValueError).
  { intros st. unfold label_feature.
    rewrite (py_get_lookup _ _ _ Hids). simpl.
    now rewrite (py_list_index_absent _ _ Hnot). }
  split; [exact Hstep|]. intros Hi. unfold label_features.
  apply (for_enumerate_raises _
           (label_feature_returns cls_token_id pad_on_right answers enc)
           _ 0%nat i offsets Hi).
  intros st. exists ValueError. apply Hstep.
Qed.

Lemma missing_cls_token_raises_witness :
  (forall st,
     label_feature 2 true [no_gold] sample_encoding 0
       [(0, 0); (0, 4); (0, 0); (0, 5); (6, 8); (0, 0)] st =
     Raise ValueError) /\
  (offset_mapping sample_encoding !! 0%nat =
     Some [(0, 0); (0, 4); (0, 0); (0, 5); (6, 8); (0, 0)] ->
   exists e, label_features 2 true [no_gold] sample_encoding = Raise e).
Proof.
  apply (missing_cls_token_raises 2 true [no_gold] sample_encoding 0%nat
           [(0, 0); (0, 4); (0, 0); (0, 5); (6, 8); (0, 0)]
           [101; 7; 102; 8; 9; 102]).
  - reflexivity.
  - simpl. intros [H|[H|[H|[H|[H|[H|[]]]]]]]; discriminate.
Defined.

(** X7. The fallback label is the first position that holds
    [cls_token_id]: a feature of an example without gold answers is
    labelled with that position at both ends, also when the id occurs
    again later. *)
Theorem fallback_is_first_cls_position cls_token_id pad_on_right answers enc
    i (offsets : list offset) (ids : list Z) sids k ans (c : nat) :
  input_ids enc !! i = Some ids ->
  sequence_ids enc !! i = Some sids ->
  overflow_to_sample_mapping enc !! i = Some k ->
  py_get answers k = Ok ans ->
  answer_start ans = [] ->
  ids !! c = Some cls_token_id ->
  (forall j, (j < c)%nat -> ids !! j <> Some cls_token_id) ->
  forall st,
    label_feature cls_token_id pad_on_right answers enc i offsets st =
    Ok (append_end (append_start st (Z.of_nat c)) (Z.of_nat c)).
Proof.
  intros Hids Hsids Hk Hans Hnone Hc Hfirst st. unfold label_feature.
  rewrite (py_get_lookup _ _ _ Hids). simpl.
  rewrite (py_list_index_first _ _ c Hc Hfirst). simpl.
  rewrite (py_get_lookup _ _ _ Hsids). simpl.
  rewrite (py_get_lookup _ _ _ Hk). simpl. rewrite Hans. simpl.
  now rewrite Hnone.
Qed.

Lemma fallback_is_first_cls_position_witness :
  label_feature 102 true [no_gold] sample_encoding 0
    [(0, 0); (0, 4); (0, 0); (0, 5); (6, 8); (0, 0)]
    {| start_positions := []; end_positions := [] |} =
  Ok (append_end
        (append_start {| start_positions := []; end_positions := [] |}
           (Z.of_nat 2)) (Z.of_nat 2)).
Proof.
  apply (fallback_is_first_cls_position 102 true [no_gold] sample_encoding
           0%nat [(0, 0); (0, 4); (0, 0); (0, 5); (6, 8); (0, 0)]
           [101; 7; 102; 8; 9; 102]
           [None; Some 0; None; Some 1; Some 1; None] 0 no_gold 2%nat);
    try reflexivity.
  intros [|[|j]] Hj; simpl; try discriminate; lia.
Defined.

(** * Further properties of the validation features *)

Lemma blank_feature_shape pad_on_right examples enc j st st' :
  shape_inv enc j st ->
  blank_feature pad_on_right examples enc j st = Ok st' ->
  shape_inv enc (S j) st'.
Proof.
  intros (Hids & Hlen & Hoffs & Hrest) H. unfold blank_feature in H.
  bind_inv H as sids Esids. bind_inv H as k Ek. bind_inv H as eid Eeid.
  bind_inv H as old Eold. bind_inv H as new Enew. injection H as <-.
  split; [exact Hids|]. simpl. split; [rewrite length_app; simpl; lia|].
  split; [now rewrite length_insert|].
  intros i Hi. rewrite list_lookup_insert_ne by lia. apply Hrest. lia.
Qed.

(** X8. The columns returned by [prepare_validation_features] keep the
    tokenizer's token ids, hold one example id per feature, and hold as
    many offset lists as the tokenizer gave, of which those past the last
    feature are untouched. *)
Theorem validation_columns_shape tokenizer pad_on_right max_seq_length
    doc_stride pad_to_max_length examples out :
  prepare_validation_features tokenizer pad_on_right max_seq_length
    doc_stride pad_to_max_length examples = Ok out ->
  val_input_ids out =
    input_ids (tokenize tokenizer pad_on_right max_seq_length doc_stride
                 pad_to_max_length examples) /\
  length (example_id out) = length (val_input_ids out) /\
  length (val_offset_mapping out) =
    length (offset_mapping (tokenize tokenizer pad_on_right max_seq_length
                              doc_stride pad_to_max_length examples)) /\
  (forall i, (length (val_input_ids out) <= i)%nat ->
     val_offset_mapping out !! i =
     map (map Some)
       (offset_mapping (tokenize tokenizer pad_on_right max_seq_length
                          doc_stride pad_to_max_length examples)) !! i).
Proof.
  unfold prepare_validation_features.
  set (enc := tokenize _ _ _ _ _ _). intros H.
  apply (for_range_inv (shape_inv enc)) in H.
  - destruct H as (Hids & Hlen & Hoffs & Hrest). simpl in Hlen.
    rewrite Hids. auto.
  - intros. eapply blank_feature_shape; eauto.
  - split; [reflexivity|]. split; [reflexivity|].
    split; [simpl; now rewrite length_map|]. intros; reflexivity.
Qed.

Lemma validation_columns_shape_witness :
  [[101; 5; 102]; [101; 5; 102]; [101; 5; 102]; [101; 5; 102]] =
    input_ids (tokenize sample_tokenizer true 384 128 true
                 [sample_example "a" 1; sample_example "b" 3]) /\
  length ["a"; "b"; "b"; "b"] =
    length [[101; 5; 102]; [101; 5; 102]; [101; 5; 102]; [101; 5; 102]] /\
  length
    [[None; Some (0, 1); None]; [None; Some (0, 1); None];
     [None; Some (0, 1); None]; [@None offset; Some (0, 1); None]] =
    length (offset_mapping (tokenize sample_tokenizer true 384 128 true
                              [sample_example "a" 1; sample_example "b" 3])) /\
  (forall i,
     (length [[101; 5; 102]; [101; 5; 102]; [101; 5; 102]; [101; 5; 102]]
      <= i)%nat ->
     [[None; Some (0, 1); None]; [None; Some (0, 1); None];
      [None; Some (0, 1); None]; [@None offset; Some (0, 1); None]] !! i =
     map (map Some)
       (offset_mapping (tokenize sample_tokenizer true 384 128 true
                          [sample_example "a" 1; sample_example "b" 3])) !! i).
Proof.
  apply (validation_columns_shape sample_tokenizer true 384 128 true
           [sample_example "a" 1; sample_example "b" 3]
           {| val_input_ids :=
                [[101; 5; 102]; [101; 5; 102]; [101; 5; 102]; [101; 5; 102]];
              val_offset_mapping :=
                [[None; Some (0, 1); None]; [None; Some (0, 1); None];
                 [None; Some (0, 1); None]; [None; Some (0, 1); None]];
              example_id := ["a"; "b"; "b"; "b"] |}).
  reflexivity.
Defined.

Lemma comprehension_enumerate_total {A B : Type} (f : nat -> A -> result B)
    (l : list A) : forall k,
  (forall p x, l !! p = Some x -> exists y, f (k + p)%nat x = Ok y) ->
  exists out, comprehension_enumerate l k f = Ok out.
Proof.
  induction l as [|a l IH]; intros k Hf; simpl; [eauto|].
  destruct (Hf 0%nat a eq_refl) as [y Hy]. rewrite Nat.add_0_r in Hy.
  rewrite Hy. simpl.
  destruct (IH (S k)) as [ys ->].
  { intros p x Hp. replace (S k + p)%nat with (k + S p)%nat by lia.
    now apply Hf. }
  simpl. eauto.
Qed.

Lemma for_range_progress {St : Type} (Inv : nat -> St -> Prop)
    (body : nat -> St -> result St) (bound : nat) :
  (forall i s, (i < bound)%nat -> Inv i s ->
     exists s', body i s = Ok s' /\ Inv (S i) s') ->
  forall n i s,
    (i + n <= bound)%nat -> Inv i s ->
    exists s', for_range n i body s = Ok s' /\ Inv (i + n)%nat s'.
Proof.
  intros Hstep. induction n as [|n IH]; intros i s Hn Hinv; simpl.
  - exists s. rewrite Nat.add_0_r. auto.
  - destruct (Hstep i s ltac:(lia) Hinv) as (s1 & -> & Hinv1). simpl.
    destruct (IH (S i) s1 ltac:(lia) Hinv1) as (s' & Hs' & Hinv').
    exists s'. split; [assumption|].
    now replace (i + S n)%nat with (S i + n)%nat by lia.
Qed.

Lemma blank_feature_progress pad_on_right examples enc j st :
  encoding_contract examples enc ->
  (j < length (input_ids enc))%nat ->
  shape_inv enc j st ->
  exists st',
    blank_feature pad_on_right examples enc j st = Ok st' /\
    shape_inv enc (S j) st'.
Proof.
  intros (Hseq & Hoff & Hmap & Hsids & Hsample) Hj Hinv.
  destruct (lookup_lt_is_Some_2 (sequence_ids enc) j ltac:(lia))
    as [sids Esids].
  destruct (lookup_lt_is_Some_2 (overflow_to_sample_mapping enc) j
              ltac:(lia)) as [k Ek].
  destruct (lookup_lt_is_Some_2 (offset_mapping enc) j ltac:(lia))
    as [offs Eoffs].
  destruct (py_get_in_range_Ok (map ex_id examples) k) as [eid Eeid].
  { unfold len. rewrite length_map. apply (Hsample j k Ek). }
  assert (Eold : val_offset_mapping st !! j = Some (map Some offs)).
  { destruct Hinv as (_ & _ & _ & Hrest).
    rewrite Hrest by lia. now rewrite list_lookup_fmap, Eoffs. }
  destruct (comprehension_enumerate_total
              (keep_context pad_on_right sids) (map Some offs) 0)
    as [new Enew].
  { intros p x Hp. apply lookup_lt_Some in Hp as Hlt.
    rewrite length_map in Hlt. specialize (Hsids j sids offs Esids Eoffs).
    destruct (lookup_lt_is_Some_2 sids p ltac:(lia)) as [y Hy].
    unfold keep_context. simpl. rewrite (py_get_lookup _ _ _ Hy). simpl.
    eauto. }
  assert (Hblank : exists st',
            blank_feature pad_on_right examples enc j st = Ok st').
  { unfold blank_feature.
    rewrite (py_get_lookup _ _ _ Esids). simpl.
    rewrite (py_get_lookup _ _ _ Ek). simpl. rewrite Eeid. simpl.
    rewrite (py_get_lookup _ _ _ Eold). simpl. rewrite Enew. simpl. eauto. }
  destruct Hblank as [st' Hst']. exists st'. split; [assumption|].
  eapply blank_feature_shape; eauto.
Qed.

Lemma validation_rows_Ok ids : forall offs eids,
  length offs = length ids -> length eids = length ids ->
  exists rows,
    validation_rows ids offs eids = Ok rows /\
    map feat_input_ids rows = ids /\
    map feat_offset_mapping rows = offs /\
    map feat_example_id rows = eids.
Proof.
  induction ids as [|i ids IH]; intros [|o offs] [|e eids] Ho He;
    try discriminate; simpl.
  - exists []. auto.
  - destruct (IH offs eids) as (rows & -> & H1 & H2 & H3);
      [simpl in Ho; lia|simpl in He; lia|].
    simpl. eexists. split; [reflexivity|]. simpl.
    now rewrite H1, H2, H3.
Qed.

(** X9. When the tokenizer's output has one entry per feature in each of
    its columns, sequence ids for every offset, and sample indices inside
    the batch, the batched function mapped over the validation split
    returns one row per feature, with the tokenizer's token ids in feature
    order: it raises nothing. *)
Theorem validation_batch_under_contract tokenizer data_args pad_on_right
    examples :
  encoding_contract examples
    (tokenize tokenizer pad_on_right (max_seq_length data_args)
       (doc_stride data_args) (pad_to_max_length data_args) examples) ->
  exists rows,
    validation_batch tokenizer data_args pad_on_right examples = Ok rows /\
    map feat_input_ids rows =
      input_ids (tokenize tokenizer pad_on_right (max_seq_length data_args)
                   (doc_stride data_args) (pad_to_max_length data_args)
                   examples) /\
    length rows =
      length (input_ids
                (tokenize tokenizer pad_on_right (max_seq_length data_args)
                   (doc_stride data_args) (pad_to_max_length data_args)
                   examples)).
Proof.
  unfold validation_batch, prepare_validation_features.
  set (enc := tokenize _ _ _ _ _ _). intros Hcontract.
  destruct (for_range_progress (shape_inv enc)
              (blank_feature pad_on_right examples enc)
              (length (input_ids enc))) with
    (n := length (input_ids enc)) (i := 0%nat)
    (s := {| val_input_ids := input_ids enc;
             val_offset_mapping := map (map Some) (offset_mapping enc);
             example_id := [] |})
    as (out & -> & Hids & Hlen & Hoffs & _).
  - intros i s Hi Hinv. now apply blank_feature_progress.
  - lia.
  - split; [reflexivity|]. split; [reflexivity|].
    split; [simpl; now rewrite length_map|]. intros; reflexivity.
  - simpl. destruct Hcontract as (_ & Hoff & _).
    destruct (validation_rows_Ok (val_input_ids out)
                (val_offset_mapping out) (example_id out))
      as (rows & -> & H1 & _); [rewrite Hids; lia|rewrite Hids; lia|].
    exists rows. rewrite <- Hids, <- H1. split; [reflexivity|].
    split; [reflexivity|]. now rewrite length_map.
Qed.

Lemma validation_batch_under_contract_witness :
  exists rows,
    validation_batch sample_tokenizer (sample_args None false) true
      [sample_example "a" 1; sample_example "b" 3] = Ok rows /\
    map feat_input_ids rows =
      input_ids (tokenize sample_tokenizer true 384 128 true
                   [sample_example "a" 1; sample_example "b" 3]) /\
    length rows =
      length (input_ids (tokenize sample_tokenizer true 384 128 true
                           [sample_example "a" 1; sample_example "b" 3])).
Proof.
  apply (validation_batch_under_contract sample_tokenizer
           (sample_args None false) true
           [sample_example "a" 1; sample_example "b" 3]).
  split; [reflexivity|]. split; [reflexivity|]. split; [reflexivity|].
  split.
  - intros [|[|[|[|i]]]] sids offs Hs Ho; simpl in Hs, Ho;
      try discriminate; injection Hs as <-; injection Ho as <-; simpl; lia.
  - intros [|[|[|[|i]]]] k Hk; simpl in Hk; try discriminate;
      injection Hk as <-; unfold len; simpl; lia.
Defined.

(** * Further properties of the dataset pipeline *)

Lemma map_batches_fuel {A B : Type} (f : list A -> result (list B)) :
  forall fuel fuel' ds,
    (length ds <= fuel)%nat -> (length ds <= fuel')%nat ->
    map_batches fuel f ds = map_batches fuel' f ds.
Proof.
  induction fuel as [|fuel IH]; intros fuel' [|x ds] H H';
    try reflexivity; try (destruct fuel'; reflexivity);
    cbn [length] in H, H'; try lia.
  destruct fuel' as [|fuel']; [lia|].
  cbn [map_batches].
  rewrite (IH fuel' (drop batch_size (x :: ds))).
  - reflexivity.
  - rewrite length_drop. unfold batch_size. cbn [length]. lia.
  - rewrite length_drop. unfold batch_size. cbn [length]. lia.
Qed.

Lemma Dataset_map_cons {A B : Type} (f : list A -> result (list B)) x ds :
  Dataset_map f (x :: ds) =
  bind (f (take batch_size (x :: ds))) (fun out =>
    bind (Dataset_map f (drop batch_size (x :: ds))) (fun rest =>
      Ok (out ++ rest))).
Proof.
  unfold Dataset_map. cbn [length map_batches].
  rewrite (map_batches_fuel f (length ds)
             (length (drop batch_size (x :: ds)))
             (drop batch_size (x :: ds))).
  - reflexivity.
  - rewrite length_drop. unfold batch_size. cbn [length]. lia.
  - lia.
Qed.

(** X10. For a function that works row by row (the rows of a concatenation
    are the rows of its parts, in order), mapping it over a dataset in
    batches gives what it gives on the whole dataset: the batch boundaries
    do not show. *)
Theorem Dataset_map_rowwise {A B : Type} (f : list A -> result (list B)) :
  f [] = Ok [] ->
  (forall a b,
     f (a ++ b) = bind (f a) (fun x => bind (f b) (fun y => Ok (x ++ y)))) ->
  forall ds, Dataset_map f ds = f ds.
Proof.
  intros Hnil Happ ds.
  remember (length ds) as n eqn:Hn. revert ds Hn.
  induction n as [n IH] using lt_wf_ind. intros [|x ds] Hn.
  - now rewrite Hnil.
  - rewrite Dataset_map_cons.
    rewrite (IH (length (drop batch_size (x :: ds)))) by
      (try reflexivity; subst n; rewrite length_drop; unfold batch_size;
       cbn [length]; lia).
    rewrite <- Happ. now rewrite take_drop.
Qed.

Lemma Dataset_map_rowwise_witness :
  Dataset_map (fun l : list nat => Ok (flat_map (fun x => [x; x]) l))
    [1; 2; 3]%nat =
  (fun l : list nat => Ok (flat_map (fun x => [x; x]) l)) [1; 2; 3]%nat.
Proof.
  apply (Dataset_map_rowwise
           (fun l : list nat => Ok (flat_map (fun x => [x; x]) l))).
  - reflexivity.
  - intros a b. simpl. now rewrite flat_map_app.
Defined.

Lemma limited_size {A : Type} (n : Z) (features out : list A) :
  select_if_limited (Some n) features = Ok out ->
  (0 <= n ->
   (len out = n \/ (features = [] /\ out = [])) /\
   samples_metric (Some n) out = len out) /\
  (n < 0 -> out = [] /\ samples_metric (Some n) out = n).
Proof.
  intros H. apply select_if_limited_Some in H as [Hle ->].
  unfold samples_metric, len in *. split; intros Hn.
  - rewrite length_take. destruct Hle as [->|Hle].
    + simpl. split; [right; rewrite take_nil; auto|lia].
    + split; [left|]; lia.
  - replace (Z.to_nat n) with 0%nat by lia. rewrite take_0. simpl.
    split; [reflexivity|lia].
Qed.

(** X12. After a preprocessing with a sample limit [n] that succeeded, the
    training set has exactly [n] rows when [n] is not negative, unless
    there was nothing to select from, in which case it is empty; either way
    the [train_samples] figure written to the metrics is its number of
    rows.  A negative limit leaves an empty training set and is itself
    written as [train_samples].  The same holds of the evaluation and
    prediction sets. *)
Theorem limited_dataset_size_and_metric tokenizer cls_token_id data_args
    pad_on_right datasets :
  (forall n out,
     max_train_samples data_args = Some n ->
     preprocess_train_dataset tokenizer cls_token_id data_args pad_on_right
       datasets = Ok out ->
     (0 <= n ->
      (len out = n \/ out = []) /\ samples_metric (Some n) out = len out) /\
     (n < 0 -> out = [] /\ samples_metric (Some n) out = n)) /\
  (forall n out,
     max_eval_samples data_args = Some n ->
     preprocess_eval_dataset tokenizer data_args pad_on_right datasets =
       Ok out ->
     (0 <= n ->
      (len (fst out) = n \/ fst out = []) /\
      (len (snd out) = n \/ snd out = []) /\
      samples_metric (Some n) (snd out) = len (snd out)) /\
     (n < 0 -> fst out = [] /\ snd out = [] /\
      samples_metric (Some n) (snd out) = n)) /\
  (forall n out,
     max_predict_samples data_args = Some n ->
     preprocess_predict_dataset tokenizer data_args pad_on_right datasets =
       Ok out ->
     (0 <= n ->
      (len (fst out) = n \/ fst out = []) /\
      (len (snd out) = n \/ snd out = []) /\
      samples_metric (Some n) (snd out) = len (snd out)) /\
     (n < 0 -> fst out = [] /\ snd out = [] /\
      samples_metric (Some n) (snd out) = n)).
Proof.
  split; [|split].
  - intros n out Hn H. unfold preprocess_train_dataset in H. rewrite Hn in H.
    destruct (train datasets) as [examples|]; [|discriminate].
    bind_inv H as selected Esel. bind_inv H as features Emap.
    apply limited_size in H as [Hr Hr']. split; [|exact Hr'].
    intros Hn0. destruct (Hr Hn0) as [[Hlen|[_ Hnil]] Hm]; auto.
  - intros n out Hn H. unfold preprocess_eval_dataset in H. rewrite Hn in H.
    destruct (validation datasets) as [examples|]; [|discriminate].
    bind_inv H as selected Esel. bind_inv H as features Emap.
    bind_inv H as retained Eret. injection H as <-. simpl.
    apply limited_size in Esel as [Hs Hs'].
    apply limited_size in Eret as [Hr Hr'].
    split; intros Hn0.
    + destruct (Hs Hn0) as [[Hlen|[_ Hnil]] _],
        (Hr Hn0) as [[Hlen'|[_ Hnil']] Hm]; auto.
    + destruct (Hs' Hn0), (Hr' Hn0). auto.
  - intros n out Hn H. unfold preprocess_predict_dataset in H.
    rewrite Hn in H.
    destruct (test datasets) as [examples|]; [|discriminate].
    bind_inv H as selected Esel. bind_inv H as features Emap.
    bind_inv H as retained Eret. injection H as <-. simpl.
    apply limited_size in Esel as [Hs Hs'].
    apply limited_size in Eret as [Hr Hr'].
    split; intros Hn0.
    + destruct (Hs Hn0) as [[Hlen|[_ Hnil]] _],
        (Hr Hn0) as [[Hlen'|[_ Hnil']] Hm]; auto.
    + destruct (Hs' Hn0), (Hr' Hn0). auto.
Qed.

Lemma limited_dataset_size_and_metric_witness :
  (len [sample_example "a" 1; sample_example "b" 3] = 2 \/
   [sample_example "a" 1; sample_example "b" 3] = []) /\
  (len [ {| feat_input_ids := [101; 5; 102];
            feat_offset_mapping := [None; Some (0, 1); None];
            feat_example_id := "a" |};
         {| feat_input_ids := [101; 5; 102];
            feat_offset_mapping := [None; Some (0, 1); None];
            feat_example_id := "b" |} ] = 2 \/
   [ {| feat_input_ids := [101; 5; 102];
        feat_offset_mapping := [None; Some (0, 1); None];
        feat_example_id := "a" |};
     {| feat_input_ids := [101; 5; 102];
        feat_offset_mapping := [None; Some (0, 1); None];
        feat_example_id := "b" |} ] = []) /\
  samples_metric (Some 2)
    [ {| feat_input_ids := [101; 5; 102];
         feat_offset_mapping := [None; Some (0, 1); None];
         feat_example_id := "a" |};
      {| feat_input_ids := [101; 5; 102];
         feat_offset_mapping := [None; Some (0, 1); None];
         feat_example_id := "b" |} ] =
  len [ {| feat_input_ids := [101; 5; 102];
           feat_offset_mapping := [None; Some (0, 1); None];
           feat_example_id := "a" |};
        {| feat_input_ids := [101; 5; 102];
           feat_offset_mapping := [None; Some (0, 1); None];
           feat_example_id := "b" |} ].
Proof.
  destruct (limited_dataset_size_and_metric sample_tokenizer 101
              (sample_args (Some 2) false) true
              {| train := None;
                 validation :=
                   Some [sample_example "a" 1; sample_example "b" 3;
                         sample_example "c" 1];
                 test := None |}) as (_ & Heval & _).
  destruct (Heval 2
              ([sample_example "a" 1; sample_example "b" 3],
               [ {| feat_input_ids := [101; 5; 102];
                    feat_offset_mapping := [None; Some (0, 1); None];
                    feat_example_id := "a" |};
                 {| feat_input_ids := [101; 5; 102];
                    feat_offset_mapping := [None; Some (0, 1); None];
                    feat_example_id := "b" |} ])) as [Hsize _].
  - reflexivity.
  - vm_compute. reflexivity.
  - apply Hsize. lia.
Defined.

(** On an empty split a limit changes nothing: the evaluation path returns
    no example and no feature, and the figure written is 0. *)
Lemma limited_empty_split :
  preprocess_eval_dataset sample_tokenizer (sample_args (Some 2) false) true
    {| train := None; validation := Some []; test := None |} = Ok ([], []) /\
  samples_metric (Some 2) (@nil Feature) = 0.
Proof. split; reflexivity. Qed.

(** * Properties of the setup helpers *)

(** ** Sequence length *)

(** X13. The sequence length used never exceeds the requested one nor the
    model's maximum and is one of the two; a warning is logged exactly when
    the value used differs from the requested one. *)
Theorem max_seq_length_clipped (requested model_max_length : Z) :
  fst (get_max_seq_length requested model_max_length) <= requested /\
  fst (get_max_seq_length requested model_max_length) <= model_max_length /\
  (fst (get_max_seq_length requested model_max_length) = requested \/
   fst (get_max_seq_length requested model_max_length) = model_max_length) /\
  (snd (get_max_seq_length requested model_max_length) = [] <->
   fst (get_max_seq_length requested model_max_length) = requested) /\
  (snd (get_max_seq_length requested model_max_length) <> [] ->
   snd (get_max_seq_length requested model_max_length) =
   [WarnMaxSeqLength requested model_max_length]).
Proof.
  unfold get_max_seq_length. simpl.
  destruct (Z.gtb_spec requested model_max_length) as [Hgt|Hle].
  - repeat split; try lia; try discriminate; intros; lia.
  - repeat split; try lia; try reflexivity; intros; congruence.
Qed.

(** ** Column names *)

Lemma py_get_Ok_elem_of {A : Type} (l : list A) (i : Z) (x : A) :
  py_get l i = Ok x -> x ∈ l.
Proof.
  intros H. apply py_get_Ok_elem in H as [k Hk].
  eapply list_elem_of_lookup_2; eauto.
Qed.

Lemma column_choice_elem_of name (k : Z) column_names chosen :
  (if py_in name column_names then Ok name else py_get column_names k) =
    Ok chosen ->
  chosen ∈ column_names.
Proof.
  unfold py_in. case_bool_decide as Hin.
  - now intros [= <-].
  - apply py_get_Ok_elem_of.
Qed.

(** X14. The three column names returned by [__get_qcas] are names of the
    dataset's columns. *)
Theorem qcas_are_columns (column_names : list string) q c a :
  get_qcas column_names = Ok (q, c, a) ->
  q ∈ column_names /\ c ∈ column_names /\ a ∈ column_names.
Proof.
  unfold get_qcas. intros H.
  bind_inv H as q' Eq. bind_inv H as c' Ec. bind_inv H as a' Ea.
  injection H as <- <- <-.
  repeat split; eapply column_choice_elem_of; eassumption.
Qed.

Lemma qcas_are_columns_witness :
  "id" ∈ ["id"; "ctx"; "answers"] /\ "ctx" ∈ ["id"; "ctx"; "answers"] /\
  "answers" ∈ ["id"; "ctx"; "answers"].
Proof.
  apply (qcas_are_columns ["id"; "ctx"; "answers"] "id" "ctx" "answers").
  reflexivity.
Defined.

Lemma column_choice_Ok name (k : nat) (column_names : list string) :
  (exists chosen,
     (if py_in name column_names then Ok name
      else py_get column_names (Z.of_nat k)) = Ok chosen) <->
  name ∈ column_names \/ (k < length column_names)%nat.
Proof.
  unfold py_in. case_bool_decide as Hin.
  - split; eauto.
  - rewrite py_get_of_nat. split.
    + intros [chosen H]. right.
      destruct (column_names !! k) eqn:E; [|discriminate].
      now apply lookup_lt_Some in E.
    + intros [H|H]; [contradiction|].
      destruct (lookup_lt_is_Some_2 column_names k H) as [x ->]. eauto.
Qed.

(** X15. [__get_qcas] returns exactly when each of the names "question",
    "context" and "answers" is either a column or can be replaced by the
    column at position 0, 1 and 2 respectively; otherwise it raises
    [IndexError].  In particular it returns for every dataset of at least
    three columns. *)
Theorem qcas_returns_iff (column_names : list string) :
  ((exists r, get_qcas column_names = Ok r) <->
   ("question" ∈ column_names \/ (0 < length column_names)%nat) /\
   ("context" ∈ column_names \/ (1 < length column_names)%nat) /\
   ("answers" ∈ column_names \/ (2 < length column_names)%nat)) /\
  ((forall r, get_qcas column_names <> Ok r) ->
   get_qcas column_names = Raise IndexError).
Proof.
  pose proof (column_choice_Ok "question" 0 column_names) as Hq.
  pose proof (column_choice_Ok "context" 1 column_names) as Hc.
  pose proof (column_choice_Ok "answers" 2 column_names) as Ha.
  change (Z.of_nat 0) with 0 in Hq. change (Z.of_nat 1) with 1 in Hc.
  change (Z.of_nat 2) with 2 in Ha. unfold get_qcas.
  split.
  - rewrite <- Hq, <- Hc, <- Ha. split.
    + intros [r H]. bind_inv H as q Eq. bind_inv H as c Ec.
      bind_inv H as a Ea.
      split; [exists q; exact Eq|]. split; [exists c; exact Ec|].
      exists a; exact Ea.
    + intros ([q ->] & [c ->] & [a ->]). simpl. eauto.
  - intros Hnone.
    assert (Hraise : forall name (k : Z),
      (exists chosen,
         (if py_in name column_names then Ok name
          else py_get column_names k) = Ok chosen) \/
      (if py_in name column_names then Ok name
       else py_get column_names k) = Raise IndexError).
    { intros name k. destruct (py_in name column_names); [eauto|].
      unfold py_get. destruct (_ && _); [|auto].
      destruct (column_names !! _); eauto. }
    destruct (Hraise "question" 0) as [[q Eq]|Eq]; rewrite Eq in *;
      [simpl in *|reflexivity].
    destruct (Hraise "context" 1) as [[c Ec]|Ec]; rewrite Ec in *;
      [simpl in *|reflexivity].
    destruct (Hraise "answers" 2) as [[a Ea]|Ea]; rewrite Ea in *;
      [simpl in *|reflexivity].
    exfalso. now apply (Hnone (q, c, a)).
Qed.

(** X16. The fallback by position can give one column two roles: when the
    first column is named "context" and no column is named "question", the
    question column and the context column returned are the same. *)
Theorem qcas_roles_can_coincide (rest : list string) q c a :
  "question" ∉ "context" :: rest ->
  get_qcas ("context" :: rest) = Ok (q, c, a) ->
  q = "context" /\ c = "context".
Proof.
  intros Hnot H. unfold get_qcas in H.
  unfold py_in in H at 1. rewrite bool_decide_eq_false_2 in H by assumption.
  rewrite py_get_head in H. simpl in H.
  bind_inv H as a' Ea. now injection H as <- <- <-.
Qed.

Lemma qcas_roles_can_coincide_witness :
  "context" = "context" /\ "context" = "context".
Proof.
  apply (qcas_roles_can_coincide ["title"; "answers"] "context" "context"
           "answers").
  - intros H. repeat (apply elem_of_cons in H as [H|H]; [discriminate|]).
    now apply elem_of_nil in H.
  - reflexivity.
Defined.

(** ** Data files *)

Lemma split_dot_nonempty (s : string) : split_dot s <> [].
Proof.
  induction s as [|c s IH]; simpl; [discriminate|].
  destruct (Ascii.eqb c "."); [discriminate|].
  destruct (split_dot s); discriminate.
Qed.

Lemma split_dot_app_dot (stem extension : string) :
  split_dot (stem +:+ ("." +:+ extension)) =
  split_dot stem ++ split_dot extension.
Proof.
  induction stem as [|c stem IH]; [reflexivity|].
  change (String c stem +:+ ("." +:+ extension))%string
    with (String c (stem +:+ ("." +:+ extension))).
  cbn [split_dot]. rewrite IH.
  destruct (Ascii.eqb c "."); [reflexivity|].
  destruct (split_dot stem) as [|piece pieces] eqn:E; [|reflexivity].
  now apply split_dot_nonempty in E.
Qed.

Lemma last_cons_nonempty {A : Type} (x : A) (l : list A) :
  l <> [] -> last (x :: l) = last l.
Proof. destruct l; [congruence|reflexivity]. Qed.

Lemma last_split_dot_inv (s : string) : forall extension,
  last (split_dot s) = Some extension ->
  (split_dot s = [s] /\ s = extension) \/
  exists stem, s = (stem +:+ ("." +:+ extension))%string.
Proof.
  induction s as [|c s IH]; intros extension H.
  - left. simpl in H. injection H as <-. auto.
  - cbn [split_dot] in H |- *.
    destruct (Ascii.eqb_spec c ".") as [->|Hc].
    + right. rewrite last_cons_nonempty in H by apply split_dot_nonempty.
      destruct (IH _ H) as [[_ ->]|[stem ->]].
      * exists EmptyString. reflexivity.
      * exists (String "." stem). reflexivity.
    + destruct (split_dot s) as [|piece pieces] eqn:E;
        [now apply split_dot_nonempty in E|].
      destruct pieces as [|piece' pieces].
      * simpl in H. injection H as <-.
        destruct (IH piece eq_refl) as [[Hs ->]|[stem ->]].
        -- left. auto.
        -- exfalso. rewrite split_dot_app_dot in E.
           apply (f_equal length) in E. rewrite length_app in E.
           pose proof (split_dot_nonempty stem).
           pose proof (split_dot_nonempty piece).
           destruct (split_dot stem), (split_dot piece); simpl in E;
             congruence || lia.
      * right.
        assert (H' : last (piece :: piece' :: pieces) = Some extension)
          by exact H.
        destruct (IH _ H') as [[Hs _]|[stem ->]]; [discriminate|].
        exists (String c stem). reflexivity.
Qed.

Lemma py_last_split_dot (name : string) :
  exists extension,
    last (split_dot name) = Some extension /\
    py_last (split_dot name) = Done extension.
Proof.
  unfold py_last. destruct (last (split_dot name)) as [e|] eqn:E; [eauto|].
  apply last_None in E. now apply split_dot_nonempty in E.
Qed.

Lemma check_file_Some (name : string) :
  (check_file (Some name) = Done tt <-> csv_or_json name) /\
  (check_file (Some name) = Done tt \/
   check_file (Some name) = Failed AssertionError).
Proof.
  unfold check_file.
  destruct (py_last_split_dot name) as (e & Hlast & ->). simpl.
  case_bool_decide as He.
  - split; [|auto]. split; [intros _|reflexivity].
    exists e. split; [assumption|].
    destruct (last_split_dot_inv name e Hlast) as [[_ ->]|H]; auto.
  - split; [|auto]. split; [discriminate|].
    intros (e' & He' & Hname). exfalso. apply He.
    assert (Hsingle : split_dot e' = [e']).
    { apply elem_of_cons in He' as [->|He']; [reflexivity|].
      apply elem_of_cons in He' as [->|He']; [reflexivity|].
      now apply elem_of_nil in He'. }
    destruct Hname as [->|[stem ->]].
    + rewrite Hsingle in Hlast. simpl in Hlast. injection Hlast as <-.
      assumption.
    + rewrite split_dot_app_dot, Hsingle, last_snoc in Hlast.
      injection Hlast as <-. assumption.
Qed.

Lemma check_file_cases (file : option string) :
  (check_file file = Done tt <->
   forall name, file = Some name -> csv_or_json name) /\
  (check_file file = Done tt \/ check_file file = Failed AssertionError).
Proof.
  destruct file as [name|].
  - destruct (check_file_Some name) as [Hiff Hcases]. split; [|exact Hcases].
    rewrite Hiff. split.
    + intros H name' [= <-]. exact H.
    + intros H. now apply H.
  - split; [|left; reflexivity]. split; [intros _ name; discriminate|].
    reflexivity.
Qed.

Lemma nothing_given_iff (args : DataFiles) :
  bool_decide (dataset_name args = None)
  && bool_decide (train_file args = None)
  && bool_decide (validation_file args = None)
  && bool_decide (test_file args = None) = true <->
  dataset_name args = None /\ train_file args = None /\
  validation_file args = None /\ test_file args = None.
Proof.
  rewrite !andb_true_iff, !bool_decide_eq_true. tauto.
Qed.

Lemma check_files_cases (args : DataFiles) :
  let checks :=
    and_then (check_file (train_file args)) (fun _ =>
    and_then (check_file (validation_file args)) (fun _ =>
    check_file (test_file args))) in
  (checks = Done tt <->
   check_file (train_file args) = Done tt /\
   check_file (validation_file args) = Done tt /\
   check_file (test_file args) = Done tt) /\
  (checks = Done tt \/ checks = Failed AssertionError).
Proof.
  destruct (check_file_cases (train_file args)) as [_ [Et|Et]];
    destruct (check_file_cases (validation_file args)) as [_ [Ev|Ev]];
    destruct (check_file_cases (test_file args)) as [_ [Es|Es]];
    rewrite Et, Ev, Es; simpl;
    (split; [split; [intros H|intros (H1 & H2 & H3)]|]);
    auto; discriminate.
Qed.

(** X17. The check of the data arguments passes exactly when a dataset name
    or a file is given and every file given is named "csv" or "json" or has
    one of the two after its last dot; it raises [ValueError] exactly when
    nothing is given, and otherwise fails on an assertion. *)
Theorem post_init_accepts_iff (args : DataFiles) :
  (post_init args = Done tt <->
   ~ (dataset_name args = None /\ train_file args = None /\
      validation_file args = None /\ test_file args = None) /\
   (forall name, train_file args = Some name -> csv_or_json name) /\
   (forall name, validation_file args = Some name -> csv_or_json name) /\
   (forall name, test_file args = Some name -> csv_or_json name)) /\
  (post_init args = Failed (Builtin ValueError) <->
   dataset_name args = None /\ train_file args = None /\
   validation_file args = None /\ test_file args = None) /\
  (post_init args = Done tt \/
   post_init args = Failed (Builtin ValueError) \/
   post_init args = Failed AssertionError).
Proof.
  unfold post_init.
  pose proof (nothing_given_iff args) as Hguard.
  destruct (check_files_cases args) as [Hall Hcases]. cbv zeta in Hall, Hcases.
  destruct (check_file_cases (train_file args)) as [Ht _].
  destruct (check_file_cases (validation_file args)) as [Hv _].
  destruct (check_file_cases (test_file args)) as [Hs _].
  rewrite <- Ht, <- Hv, <- Hs, <- Hall.
  destruct (_ && _).
  - assert (Hnone := proj1 Hguard eq_refl).
    split; [|split; [|auto]].
    + split; [discriminate|]. intros [Hnot _]. contradiction.
    + split; auto.
  - assert (Hsome : ~ (dataset_name args = None /\ train_file args = None /\
                       validation_file args = None /\
                       test_file args = None)).
    { intros H. apply Hguard in H. discriminate. }
    split; [|split].
    + split; [auto|]. now intros [_ H].
    + split; [|intros H; contradiction].
      destruct Hcases as [-> | ->]; discriminate.
    + destruct Hcases as [-> | ->]; auto.
Qed.

Lemma check_file_Done_extension (name : string) :
  check_file (Some name) = Done tt ->
  exists extension,
    py_last (split_dot name) = Done extension /\
    extension ∈ ["csv"; "json"].
Proof.
  unfold check_file. destruct (py_last_split_dot name) as (e & _ & ->).
  simpl. case_bool_decide; [eauto|discriminate].
Qed.

Lemma post_init_Done_checks (args : DataFiles) :
  post_init args = Done tt ->
  check_file (train_file args) = Done tt /\
  check_file (validation_file args) = Done tt /\
  check_file (test_file args) = Done tt.
Proof.
  unfold post_init. destruct (_ && _); [discriminate|].
  apply (proj1 (check_files_cases args)).
Qed.

(** Rewrites the extension of each file given to a name of its own. *)
Ltac name_extensions :=
  repeat match goal with
         | |- context [py_last (split_dot ?name)] =>
             let e := fresh "e" in
             let He := fresh "He" in
             destruct (py_last_split_dot name) as (e & _ & He);
             rewrite He; cbn [and_then fst snd]
         end.

(** X18. For data arguments that passed their check, [__get_datasets]
    reaches [load_dataset]: with a dataset name it loads that dataset from
    the hub, whatever files are given; without one it loads the files
    given, under the keys "train", "validation" and "test", with a format
    that is "csv" or "json" ([extension] is always bound). *)
Theorem get_datasets_after_post_init (args : DataFiles) :
  post_init args = Done tt ->
  (forall name,
     dataset_name args = Some name ->
     get_datasets args = Done (LoadFromHub name (dataset_config_name args))) /\
  (dataset_name args = None ->
   exists extension (files : gmap string string),
     get_datasets args = Done (LoadFromFiles extension files) /\
     extension ∈ ["csv"; "json"] /\
     files !! "train" = train_file args /\
     files !! "validation" = validation_file args /\
     files !! "test" = test_file args).
Proof.
  intros Hinit. split.
  - intros name Hname. unfold get_datasets. now rewrite Hname.
  - intros Hnone.
    destruct (post_init_Done_checks args Hinit) as (Ht & Hv & Hs).
    assert (Hsome : ~ (train_file args = None /\ validation_file args = None
                       /\ test_file args = None)).
    { intros (H1 & H2 & H3). unfold post_init in Hinit.
      rewrite Hnone, H1, H2, H3 in Hinit. discriminate. }
    unfold get_datasets, add_data_file. rewrite Hnone.
    destruct (train_file args) as [t|], (validation_file args) as [v|],
      (test_file args) as [s|];
      try (exfalso; apply Hsome; auto; fail);
      repeat match goal with
             | H : check_file (Some ?name) = Done tt |- _ =>
                 let e := fresh "e" in
                 let He := fresh "He" in
                 let Hin := fresh "Hin" in
                 apply check_file_Done_extension in H as (e & He & Hin);
                 rewrite He; cbn [and_then fst snd]
             end;
      eexists _, _; (split; [reflexivity|]); (split; [assumption|]);
      repeat split; simplify_map_eq; reflexivity.
Qed.

Lemma get_datasets_after_post_init_witness :
  exists extension (files : gmap string string),
    get_datasets
      {| dataset_name := None; dataset_config_name := None;
         train_file := Some "t.csv"; validation_file := Some "v.json";
         test_file := None |} = Done (LoadFromFiles extension files) /\
    extension ∈ ["csv"; "json"] /\
    files !! "train" = Some "t.csv" /\
    files !! "validation" = Some "v.json" /\
    files !! "test" = None.
Proof.
  destruct (get_datasets_after_post_init
              {| dataset_name := None; dataset_config_name := None;
                 train_file := Some "t.csv"; validation_file := Some "v.json";
                 test_file := None |}) as [_ H].
  - reflexivity.
  - apply H. reflexivity.
Defined.

(** X19. When files are loaded, the format handed to [load_dataset] is the
    extension of the last file given among train, validation and test,
    whatever the extensions of the others; [extension] is unbound, an
    [UnboundLocalError], exactly when no file is given. *)
Theorem loader_format_is_last_file (args : DataFiles) :
  dataset_name args = None ->
  (forall extension files,
     get_datasets args = Done (LoadFromFiles extension files) ->
     exists name,
       last_given_file args = Some name /\
       py_last (split_dot name) = Done extension) /\
  (get_datasets args = Failed UnboundLocalError <->
   last_given_file args = None).
Proof.
  intros Hnone. unfold get_datasets, add_data_file, last_given_file.
  rewrite Hnone.
  destruct (train_file args) as [t|], (validation_file args) as [v|],
    (test_file args) as [s|];
    name_extensions;
    (split;
     [intros extension files H; try discriminate;
      injection H as <- _; eexists; (split; [reflexivity|assumption])
     |split; discriminate || reflexivity]).
Qed.

Lemma loader_format_is_last_file_witness :
  exists name,
    last_given_file
      {| dataset_name := None; dataset_config_name := None;
         train_file := Some "t.csv"; validation_file := Some "v.json";
         test_file := None |} = Some name /\
    py_last (split_dot name) = Done "json".
Proof.
  destruct (loader_format_is_last_file
              {| dataset_name := None; dataset_config_name := None;
                 train_file := Some "t.csv"; validation_file := Some "v.json";
                 test_file := None |} eq_refl) as [H _].
  eapply H. reflexivity.
Defined.

(** ** Checkpoints *)

(** X20. [__get_last_checkpoint] raises, a [ValueError], exactly when the
    output directory exists and is not empty, training is requested without
    overwriting the output directory and without a checkpoint to resume
    from, and no checkpoint is found in the directory. *)
Theorem last_checkpoint_raises_iff (isdir : string -> bool)
    (listdir : string -> list string)
    (find_last_checkpoint : string -> option string)
    (training_args : TrainingArguments) :
  ((exists e,
      get_last_checkpoint isdir listdir find_last_checkpoint training_args =
      Raise e) <->
   isdir (output_dir training_args) = true /\
   do_train training_args = true /\
   overwrite_output_dir training_args = false /\
   resume_from_checkpoint training_args = None /\
   find_last_checkpoint (output_dir training_args) = None /\
   listdir (output_dir training_args) <> []) /\
  (forall e,
     get_last_checkpoint isdir listdir find_last_checkpoint training_args =
     Raise e -> e = ValueError).
Proof.
  unfold get_last_checkpoint.
  destruct (isdir (output_dir training_args)),
    (do_train training_args), (overwrite_output_dir training_args);
    simpl;
    try (split; [split; [intros [e H]; discriminate
                        |intros (? & ? & ? & _); discriminate]
                |intros e H; discriminate]).
  case_bool_decide as Hresume; simpl.
  { split; [|intros e H; discriminate].
    split; [intros [e H]; discriminate|]. intros (_ & _ & _ & H & _).
    contradiction. }
  assert (Hnone : resume_from_checkpoint training_args = None).
  { destruct (resume_from_checkpoint training_args); [|reflexivity].
    first [discriminate Hresume|exfalso; apply Hresume; discriminate]. }
  case_bool_decide as Hlast; simpl.
  - destruct (listdir (output_dir training_args)) as [|entry entries] eqn:E.
    + simpl. split; [|intros e H; discriminate].
      split; [intros [e H]; discriminate|].
      intros (_ & _ & _ & _ & _ & H). congruence.
    + replace (len (entry :: entries) >? 0) with true
        by (symmetry; apply Z.gtb_lt; unfold len; simpl; lia).
      split; [|now intros e [= <-]].
      split; [intros _|eauto]. repeat split; auto; try discriminate.
  - split; [|intros e H; discriminate].
    split; [intros [e H]; discriminate|].
    intros (_ & _ & _ & _ & H & _). contradiction.
Qed.

(** X21. When [__get_last_checkpoint] returns, a checkpoint is returned
    only if it was found in the output directory with training requested,
    no overwriting and no checkpoint to resume from; the "Checkpoint
    detected" record is logged exactly when those guards are passed, with
    the value returned, so also with [None] when the directory is empty. *)
Theorem last_checkpoint_result (isdir : string -> bool)
    (listdir : string -> list string)
    (find_last_checkpoint : string -> option string)
    (training_args : TrainingArguments) last logged :
  get_last_checkpoint isdir listdir find_last_checkpoint training_args =
    Ok (last, logged) ->
  (forall c, last = Some c ->
     find_last_checkpoint (output_dir training_args) = Some c) /\
  (logged <> [] <->
   isdir (output_dir training_args) = true /\
   do_train training_args = true /\
   overwrite_output_dir training_args = false /\
   resume_from_checkpoint training_args = None) /\
  (logged <> [] ->
   logged = [InfoCheckpointDetected last] /\
   last = find_last_checkpoint (output_dir training_args) /\
   (last = None -> listdir (output_dir training_args) = [])).
Proof.
  unfold get_last_checkpoint.
  destruct (isdir (output_dir training_args)),
    (do_train training_args), (overwrite_output_dir training_args);
    simpl;
    try (intros [= <- <-];
         split; [intros c H; discriminate|];
         split; [split; [congruence|intros (? & ? & ? & _); discriminate]
                |congruence]).
  case_bool_decide as Hresume; simpl.
  { intros [= <- <-]. split; [intros c H; discriminate|].
    split; [|congruence]. split; [congruence|].
    intros (_ & _ & _ & H). contradiction. }
  assert (Hnone : resume_from_checkpoint training_args = None).
  { destruct (resume_from_checkpoint training_args); [|reflexivity].
    first [discriminate Hresume|exfalso; apply Hresume; discriminate]. }
  destruct (bool_decide _ && _) eqn:Hguard; [discriminate|].
  intros [= <- <-]. split; [auto|].
  split; [split; [auto|discriminate]|].
  intros _. split; [reflexivity|]. split; [reflexivity|].
  intros Hlast. apply andb_false_iff in Hguard as [Hguard|Hguard].
  - apply bool_decide_eq_false in Hguard. contradiction.
  - destruct (listdir (output_dir training_args)); [reflexivity|].
    exfalso. unfold len in Hguard. simpl in Hguard. discriminate Hguard.
Qed.

Lemma last_checkpoint_result_witness :
  (forall c, @None string = Some c -> @None string = Some c) /\
  ([InfoCheckpointDetected None] <> [] <->
   true = true /\ true = true /\ false = false /\ @None string = None) /\
  ([InfoCheckpointDetected None] <> [] ->
   [InfoCheckpointDetected None] = [InfoCheckpointDetected None] /\
   @None string = None /\
   (@None string = None -> @nil string = [])).
Proof.
  apply (last_checkpoint_result (fun _ => true) (fun _ => [])
           (fun _ => None)
           {| output_dir := "out"; do_train := true;
              overwrite_output_dir := false;
              resume_from_checkpoint := None |}
           None [InfoCheckpointDetected None]).
  reflexivity.
Defined.
